(** * bazel-demo-app: the startup sequence and HTTP router of [cmd/main.go]

    A shallow embedding of [demonstrateNewDependencies], [runServer] and
    [main].  The program is a straight line of calls into libraries, so the
    embedding is a function from the outcomes the outside world hands to those
    calls (the record [World]) to the trace of observable events and the way
    the process ends.  Library calls whose result is decided by their
    arguments (viper, validator, go-cache, snowflake, gorilla/mux, the XPath
    query) are modelled by small functions in modules of their own. *)

From Stdlib Require Import Ascii String ZArith.
From stdpp Require Import gmap strings list fin_maps pretty.

Open Scope string_scope.
Open Scope list_scope.
Open Scope Z_scope.

(** ** Go values shared by the whole program *)

(** Go's [error] values: sentinel errors, errors made from a message, and
    errors that wrap another one (what [errors.Unwrap] walks through). *)
Inductive error : Type :=
| ErrServerClosed                       (* http.ErrServerClosed *)
| ErrNew (msg : string)                 (* errors.New / a library error *)
| ErrWrap (msg : string) (inner : error).

#[global] Instance error_eq_dec : EqDecision error.
Proof. solve_decision. Defined.

(** [errors.Is(err, target)]: [err] or one of the errors it wraps is
    [target]. *)
Fixpoint errors_Is (err target : error) : bool :=
  if decide (err = target) then true
  else match err with
       | ErrWrap _ inner => errors_Is inner target
       | _ => false
       end.

(** [type Config struct], lines 33-37. *)
Record Config : Type := mkConfig {
  AppName : string;
  Port : Z;
  Debug : bool
}.

(** [netrc.Machine], the three fields the program fills in. *)
Record Machine : Type := mkMachine {
  Login : string;
  Password : string;
  Account : string
}.

(** ** HTTP requests and responses *)

Record Request : Type := mkRequest {
  Method : string;
  Path : string;                        (* req.URL.Path *)
  Query : list (string * string)        (* req.URL.Query(), in request order *)
}.

Record Response : Type := mkResponse {
  Status : Z;
  ContentType : string;                 (* the Content-Type header, if set *)
  Location : option string;             (* the path of a redirect's Location *)
  Body : string
}.

(** ** Observable events *)

(** Arguments handed to a printing call.  What a library renders is kept
    symbolic: the YAML text of a configuration, a time, a UUID. *)
Inductive Arg : Type :=
| AStr (s : string)
| AInt (z : Z)
| AYaml (c : Config)                    (* string(yamlData) of yaml.Marshal(&c) *)
| ATime (unix_nano : Z)
| AMachine (m : Machine)
| AUUID (u : string)
| AErr (e : error).

Inductive Colour : Type := Green | Yellow | Cyan.

#[global] Instance Config_eq_dec : EqDecision Config.
Proof. solve_decision. Defined.
#[global] Instance Machine_eq_dec : EqDecision Machine.
Proof. solve_decision. Defined.
#[global] Instance Request_eq_dec : EqDecision Request.
Proof. solve_decision. Defined.
#[global] Instance Response_eq_dec : EqDecision Response.
Proof. solve_decision. Defined.
#[global] Instance Arg_eq_dec : EqDecision Arg.
Proof. solve_decision. Defined.
#[global] Instance Colour_eq_dec : EqDecision Colour.
Proof. solve_decision. Defined.

Inductive Event : Type :=
| EPrintln (a : Arg)                            (* fmt.Println *)
| EColor (c : Colour) (format : string) (args : list Arg)   (* color.Green ... *)
| ELogrus (msg : string)                        (* logrus.Info *)
| ELog (format : string) (args : list Arg)      (* log.Printf *)
| EListen (addr : string)                       (* http.ListenAndServe is called *)
| EBound (addr : string)                        (* the listener is bound *)
| EServed (req : Request) (resp : Response).    (* one request answered *)

#[global] Instance Event_eq_dec : EqDecision Event.
Proof. solve_decision. Defined.

(** The events of the listener: the call, the bind, a request answered. *)
Definition is_listener_event (e : Event) : bool :=
  match e with
  | EListen _ | EBound _ | EServed _ _ => true
  | _ => false
  end.

(** ** The effect monad: a trace of events and a way to stop *)

Inductive PanicValue : Type :=
| PanicErr (e : error)                  (* panic(err) *)
| PanicSliceBounds (hi len : nat)       (* slice bounds out of range [:hi] with length len *)
| PanicNilDeref.                        (* nil pointer dereference *)

Inductive Abort : Type :=
| Panic (v : PanicValue)
| OsExit (code : Z).

Inductive Result (A : Type) : Type :=
| Ok (a : A)
| Stop (ab : Abort).
Arguments Ok {A} a.
Arguments Stop {A} ab.

Definition Run (A : Type) : Type := (list Event * Result A)%type.

Definition bind {A B} (k : A -> Run B) (m : Run A) : Run B :=
  match m with
  | (tr, Ok a) => let '(tr', r) := k a in (tr ++ tr', r)
  | (tr, Stop ab) => (tr, Stop ab)
  end.

#[global] Instance Run_ret : MRet Run := fun A a => ([], Ok a).
#[global] Instance Run_bind : MBind Run := @bind.

Definition emit (e : Event) : Run unit := ([e], Ok tt).
Definition panic {A} (v : PanicValue) : Run A := ([], Stop (Panic v)).
Definition os_Exit {A} (code : Z) : Run A := ([], Stop (OsExit code)).

Definition trace {A} (m : Run A) : list Event := fst m.
Definition result {A} (m : Run A) : Result A := snd m.

(** The exit status of the process: 0 when [main] returns, the argument of
    [os.Exit], 2 for a panic nobody recovers. *)
Definition exit_code {A} (r : Result A) : Z :=
  match r with
  | Ok _ => 0
  | Stop (OsExit c) => c
  | Stop (Panic _) => 2
  end.

Definition panicked {A} (r : Result A) : bool :=
  match r with Stop (Panic _) => true | _ => false end.

(** The process ended in a way other than returning from [main]. *)
Definition fatal {A} (r : Result A) : bool :=
  match r with Ok _ => false | Stop _ => true end.

(** ** viper: the process-wide configuration store *)

(** The store as this program uses it: keys without a dot, values of the
    three kinds the program stores.  A value written with [Set] overrides a
    default; the layers in between (flags, environment, configuration file,
    key/value store) are never bound or read by the program. *)
Module viper.

Inductive Val : Type :=
| VStr (s : string)
| VInt (z : Z)
| VBool (b : bool).

Record Viper : Type := mkViper {
  override : gmap string Val;
  defaults : gmap string Val
}.

(** The package-level instance [v = New()]. *)
Definition New : Viper := mkViper ∅ ∅.

Definition lower_ascii (a : ascii) : ascii :=
  let n := nat_of_ascii a in
  if ((65 <=? n) && (n <=? 90))%nat then ascii_of_nat (n + 32) else a.

(** [strings.ToLower] on an ASCII string: the letters A-Z are folded, every
    other byte is kept.  The keys of this program are ASCII. *)
Fixpoint ToLower (s : string) : string :=
  match s with
  | EmptyString => EmptyString
  | String a s' => String (lower_ascii a) (ToLower s')
  end.

(** [SetDefault] and [Set] on a key without the delimiter [.]: the entry
    is stored under the lower-cased key itself. *)
Definition SetDefault (key : string) (value : Val) (v : Viper) : Viper :=
  mkViper (override v) (<[ToLower key := value]> (defaults v)).

Definition Set_ (key : string) (value : Val) (v : Viper) : Viper :=
  mkViper (<[ToLower key := value]> (override v)) (defaults v).

(** [v.find]: the override layer first, the defaults last; [None] is Go's
    nil. *)
Definition Get (key : string) (v : Viper) : option Val :=
  match override v !! ToLower key with
  | Some x => Some x
  | None => defaults v !! ToLower key
  end.

(** [strconv.ParseBool]. *)
Definition ParseBool (s : string) : bool :=
  bool_decide (s ∈ ["1"; "t"; "T"; "TRUE"; "true"; "True"]).

(** [cast.ToString], [cast.ToInt], [cast.ToBool] on what [Get] returns.
    A string is not converted to an integer here ([cast] parses it with
    [strconv.ParseInt]): the store of this program never holds a string
    under a key read with [GetInt]. *)
Definition GetString (key : string) (v : Viper) : string :=
  match Get key v with
  | Some (VStr s) => s
  | Some (VInt z) => pretty z
  | Some (VBool b) => if b then "true" else "false"
  | None => ""
  end.

Definition GetInt (key : string) (v : Viper) : Z :=
  match Get key v with
  | Some (VInt z) => z
  | Some (VBool b) => if b then 1 else 0
  | Some (VStr _) => 0
  | None => 0
  end.

Definition GetBool (key : string) (v : Viper) : bool :=
  match Get key v with
  | Some (VBool b) => b
  | Some (VInt z) => negb (z =? 0)
  | Some (VStr s) => ParseBool s
  | None => false
  end.

End viper.

(** ** validator: struct validation by field tags *)

Module validator.

Inductive Tag : Type :=
| required
| min (n : Z)
| max (n : Z).

(** The value of a tagged field. *)
Inductive Field : Type :=
| FString (s : string)
| FInt (z : Z).

(** [utf8.RuneCountInString] on well-formed UTF-8: the bytes that do not
    continue a rune. *)
Fixpoint rune_count (s : string) : Z :=
  match s with
  | EmptyString => 0
  | String a s' =>
      let n := nat_of_ascii a in
      (if ((128 <=? n) && (n <? 192))%nat then 0 else 1) + rune_count s'
  end.

(** One tag on one field: [required] refuses the zero value; [min] and
    [max] bound the number itself, or the number of runes of a string. *)
Definition check (t : Tag) (f : Field) : bool :=
  match t, f with
  | required, FString s => negb (String.eqb s "")
  | required, FInt z => negb (z =? 0)
  | min n, FString s => n <=? rune_count s
  | min n, FInt z => n <=? z
  | max n, FString s => rune_count s <=? n
  | max n, FInt z => z <=? n
  end.

(** A [FieldError]: the field and the tag that failed. *)
Definition FieldError : Type := (string * Tag)%type.

(** The tags of a field are tried in order; the first that fails is
    reported and the rest of that field's tags are skipped. *)
Fixpoint first_failure (tags : list Tag) (f : Field) : option Tag :=
  match tags with
  | [] => None
  | t :: tags' => if check t f then first_failure tags' f else Some t
  end.

Definition validate_fields (fs : list (string * list Tag * Field)) : list FieldError :=
  omap (fun '(name, tags, f) =>
          match first_failure tags f with
          | Some t => Some (name, t)
          | None => None
          end) fs.

(** The tagged fields of [Config] (lines 34-36); [Debug] carries no
    [validate] tag and is skipped. *)
Definition Config_fields (c : Config) : list (string * list Tag * Field) :=
  [ ("AppName", [required], FString (AppName c));
    ("Port", [required; min 1000; max 65535], FInt (Port c)) ].

(** [validate.Struct(config)]: the empty list is the nil error. *)
Definition Struct (c : Config) : list FieldError :=
  validate_fields (Config_fields c).

End validator.

(** ** go-cache: an in-memory cache whose entries expire *)

Module cache.

Definition Minute : Z := 60 * 1000000000.   (* time.Minute, in nanoseconds *)
Definition NoExpiration : Z := -1.
Definition DefaultExpiration : Z := 0.

Record Item : Type := mkItem {
  Object : string;
  Expiration : Z        (* UnixNano; 0 for an entry that never expires *)
}.

Record Cache : Type := mkCache {
  defaultExpiration : Z;
  items : gmap string Item
}.

(** [cache.New(defaultExpiration, cleanupInterval)].  The janitor started
    for a positive [cleanupInterval] deletes expired entries only, which
    [Get] does not return either; it is not part of the model. *)
Definition New (de ci : Z) : Cache :=
  mkCache (if de =? 0 then -1 else de) ∅.

(** [c.Set(k, x, d)] when the clock reads [now]. *)
Definition Set_ (k x : string) (d : Z) (now : Z) (c : Cache) : Cache :=
  let d := if d =? DefaultExpiration then defaultExpiration c else d in
  let e := if 0 <? d then now + d else 0 in
  mkCache (defaultExpiration c) (<[k := mkItem x e]> (items c)).

(** [c.Get(k)] when the clock reads [now]. *)
Definition Get (k : string) (now : Z) (c : Cache) : option string :=
  match items c !! k with
  | None => None
  | Some item =>
      if (0 <? Expiration item) && (Expiration item <? now) then None
      else Some (Object item)
  end.

End cache.

(** ** jwt-go: tokens signed with HS256 *)

Module jwt.

Inductive Claim : Type :=
| CStr (s : string)
| CInt (z : Z).

(** [jwt.NewWithClaims(method, claims)]. *)
Record Token : Type := mkToken {
  SigningMethod : string;
  Claims : list (string * Claim)
}.

Definition NewWithClaims (method : string) (claims : list (string * Claim)) : Token :=
  mkToken method claims.

(** The first segment of every HS256 token: base64url of
    [{"alg":"HS256","typ":"JWT"}]. *)
Definition header_HS256 : string := "eyJhbGciOiJIUzI1NiIsInR5cCI6IkpXVCJ9".

(** The key handed to the signer, an [interface{}]: a [[]byte], or a value
    of another type. *)
Inductive Key : Type :=
| KBytes (b : string)
| KOther.

Definition ErrInvalidKeyType : error := ErrNew "key is of invalid type".
Definition ErrHashUnavailable : error := ErrNew "the requested hash function is unavailable".

(** [token.SignedString(key)] for the method HS256.  [SigningMethodHMAC.Sign]
    refuses a key that is not a [[]byte]; with a [[]byte] key it fails only
    when the hash is not linked into the program.  The encoded claims and
    the HMAC are not computed here: [signer] holds these two segments, or
    the error of the missing hash.  On an error the token is the empty
    string. *)
Definition SignedString (t : Token) (key : Key) (signer : string + error)
  : string * option error :=
  match key with
  | KBytes _ =>
      match signer with
      | inl rest => (header_HS256 +:+ "." +:+ rest, None)
      | inr err => ("", Some err)
      end
  | KOther => ("", Some ErrInvalidKeyType)
  end.

End jwt.

(** ** snowflake: node creation *)

Module snowflake.

Definition NodeBits : Z := 10.
Definition nodeMax : Z := Z.lxor (-1) (Z.shiftl (-1) NodeBits).

(** [snowflake.NewNode(node)]: the node number must fit in [NodeBits]. *)
Definition NewNode (node : Z) : Z + error :=
  if (node <? 0) || (nodeMax <? node)
  then inr (ErrNew ("Node number must be between 0 and " +:+ pretty nodeMax))
  else inl node.

End snowflake.

(** ** xmlquery: the document tree and the one query the program runs *)

Module xmlquery.

Inductive NodeType : Type :=
| DocumentNode | DeclarationNode | ElementNode | TextNode
| CharDataNode | CommentNode | AttributeNode.

(** [xml.Attr]: [xmlns="u"] has an empty [Space] and [Local] "xmlns". *)
Record Attr : Type := mkAttr {
  Space : string;
  Local : string;
  Value : string
}.

#[warnings="-register-all"]
Inductive Node : Type :=
| mkNode (ty : NodeType) (data prefix : string) (attr : list Attr)
         (children : list Node).

Definition is_element (ty : NodeType) : bool :=
  match ty with ElementNode => true | _ => false end.

(** The step [@xmlns] on one node: its first attribute named [xmlns]
    without a prefix, when the node is an element [application] without a
    prefix. *)
Definition application_xmlns (n : Node) : option Attr :=
  match n with
  | mkNode ty data prefix attr _ =>
      if is_element ty && String.eqb data "application" && String.eqb prefix ""
      then List.find (fun a => String.eqb (Space a) "" && String.eqb (Local a) "xmlns") attr
      else None
  end.

(** The first match, in document order, among the descendants of [n]. *)
Fixpoint find_below (n : Node) : option Attr :=
  match n with
  | mkNode _ _ _ _ children =>
      (fix go (cs : list Node) : option Attr :=
         match cs with
         | [] => None
         | c :: cs' =>
             match application_xmlns c with
             | Some a => Some a
             | None =>
                 match find_below c with
                 | Some a => Some a
                 | None => go cs'
                 end
             end
         end) children
  end.

(** [xmlquery.FindOne(top, "//application/@xmlns")]: the attribute node
    found, or [None] for the nil pointer. *)
Definition FindOne_application_xmlns (top : Node) : option Attr :=
  find_below top.

(** [attr.InnerText()] through a pointer that may be nil: the method reads
    [n.Type] first. *)
Definition InnerText (n : option Attr) : Run string :=
  match n with
  | Some a => mret (Value a)
  | None => panic PanicNilDeref
  end.

End xmlquery.

(** ** handlers: the two greeting handlers *)

Module handlers.

(** [r.URL.Query()["name"]]: every value given for the key, in order. *)
Definition query_values (key : string) (q : list (string * string)) : list string :=
  (List.filter (fun kv => String.eqb (fst kv) key) q).*2.

(** [r.URL.Query().Get("name")]: the first value, or the empty string. *)
Definition query_get (key : string) (q : list (string * string)) : string :=
  match query_values key q with
  | [] => ""
  | v :: _ => v
  end.

Definition hello (name : string) : string := "Hello, " +:+ name +:+ "!".

Definition text_plain (body : string) : Response :=
  mkResponse 200 "text/plain" None body.

(** Modelled from the spec: [handlers.Greet], of the package
    [bazel-demo-app/handlers], whose source is not among the files.  It
    reads a single optional name parameter (default "World" if absent or
    empty) and returns HTTP 200 with body "Hello, <name>!" and content-type
    text/plain. *)
Definition Greet (req : Request) : Response :=
  let name := query_get "name" (Query req) in
  text_plain (hello (if String.eqb name "" then "World" else name)).

Fixpoint join_lines (ls : list string) : string :=
  match ls with
  | [] => ""
  | [l] => l
  | l :: ls' => l +:+ String "010" (join_lines ls')
  end.

(** Modelled from the spec: [handlers.GreetMany], of the same package.  One
    line "Hello, <name>!" per name parameter in the order supplied, a single
    line for the default name if none was supplied, joined by newline. *)
Definition GreetMany (req : Request) : Response :=
  let names := query_values "name" (Query req) in
  text_plain (join_lines (hello <$> (match names with [] => ["World"] | _ => names end))).

End handlers.

(** ** gorilla/mux v1.8.0: routes, matching and dispatch *)

Module mux.

Definition Handler : Type := Request -> Response.

Inductive MatchErr : Type := ErrMethodMismatch | ErrNotFound.

(** A route built by [HandleFunc(path, f)], possibly followed by
    [Methods(...)].  The path templates of this program have no variable,
    so the compiled pattern [^path$] accepts the template itself only. *)
Record Route : Type := mkRoute {
  template : string;
  methods : option (list string);
  handler : option Handler
}.

Record RouteMatch : Type := mkMatch {
  MatchHandler : option Handler;
  MatchError : option MatchErr
}.

Definition upper_ascii (a : ascii) : ascii :=
  let n := nat_of_ascii a in
  if ((97 <=? n) && (n <=? 122))%nat then ascii_of_nat (n - 32) else a.

Fixpoint ToUpper (s : string) : string :=
  match s with
  | EmptyString => EmptyString
  | String a s' => String (upper_ascii a) (ToUpper s')
  end.

Definition HandleFunc (path : string) (f : Handler) : Route :=
  mkRoute path None (Some f).

(** [route.Methods(ms...)]: the method names are upper-cased. *)
Definition Methods (ms : list string) (r : Route) : Route :=
  mkRoute (template r) (Some (ToUpper <$> ms)) (handler r).

Definition is_not_found (e : option MatchErr) : bool :=
  match e with Some ErrNotFound => true | _ => false end.

Definition is_method_mismatch (e : option MatchErr) : bool :=
  match e with Some ErrMethodMismatch => true | _ => false end.

Definition method_allowed (r : Route) (req : Request) : bool :=
  match methods r with
  | None => true
  | Some ms => bool_decide (Method req ∈ ms)
  end.

(** [Route.Match]: the path matcher first, then the method matcher.  A
    method that does not match is remembered as [ErrMethodMismatch]; a path
    that does not match gives up at once. *)
Definition Route_Match (r : Route) (req : Request) (m : RouteMatch)
  : bool * RouteMatch :=
  if negb (String.eqb (Path req) (template r)) then
    (false, if is_not_found (MatchError m) then mkMatch (MatchHandler m) None else m)
  else if negb (method_allowed r req) then
    (false, mkMatch (MatchHandler m) (Some ErrMethodMismatch))
  else
    let m1 := if is_method_mismatch (MatchError m) && bool_decide (is_Some (handler r))
              then mkMatch (handler r) None else m in
    let m2 := match MatchHandler m1 with
              | None => mkMatch (handler r) (MatchError m1)
              | Some _ => m1
              end in
    (true, m2).

(** [Router.Match] over the routes in the order they were added; the
    router has no [MethodNotAllowedHandler] and no [NotFoundHandler]. *)
Fixpoint Router_Match (routes : list Route) (req : Request) (m : RouteMatch)
  : bool * RouteMatch :=
  match routes with
  | [] =>
      if is_method_mismatch (MatchError m) then (false, m)
      else (false, mkMatch (MatchHandler m) (Some ErrNotFound))
  | r :: routes' =>
      let '(ok, m') := Route_Match r req m in
      if ok then (true, m') else Router_Match routes' req m'
  end.

(** The elements of a path between slashes. *)
Fixpoint split_slash (s : string) : list string :=
  match s with
  | EmptyString => [""]
  | String a s' =>
      if Ascii.eqb a "/" then "" :: split_slash s'
      else match split_slash s' with
           | [] => [String a ""]
           | h :: t => String a h :: t
           end
  end.

Fixpoint join_slash (es : list string) : string :=
  match es with
  | [] => ""
  | [e] => e
  | e :: es' => e +:+ "/" +:+ join_slash es'
  end.

Definition clean_step (kept : list string) (elem : string) : list string :=
  if String.eqb elem "" || String.eqb elem "." then kept
  else if String.eqb elem ".." then removelast kept
  else kept ++ [elem].

(** [path.Clean] on a path that starts with a slash: empty and [.]
    elements go, [..] removes the element before it, or nothing at the
    root. *)
Definition path_Clean (p : string) : string :=
  "/" +:+ join_slash (foldl clean_step [] (split_slash p)).

Fixpoint ends_with_slash (s : string) : bool :=
  match s with
  | EmptyString => false
  | String a EmptyString => Ascii.eqb a "/"
  | String _ s' => ends_with_slash s'
  end.

Definition starts_with_slash (s : string) : bool :=
  match s with
  | String a _ => Ascii.eqb a "/"
  | EmptyString => false
  end.

(** [cleanPath] of mux. *)
Definition cleanPath (p : string) : string :=
  if String.eqb p "" then "/"
  else
    let p := if starts_with_slash p then p else "/" +:+ p in
    let np := path_Clean p in
    if ends_with_slash p && negb (String.eqb np "/") then np +:+ "/" else np.

(** [http.NotFoundHandler()]. *)
Definition NotFound : Handler := fun _ =>
  mkResponse 404 "text/plain; charset=utf-8" None ("404 page not found" +:+ String "010" "").

(** [methodNotAllowedHandler()]: the status and nothing else. *)
Definition methodNotAllowed : Handler := fun _ => mkResponse 405 "" None "".

(** The redirect to the canonical path; [Location] holds the path of the
    URL sent back. *)
Definition movedPermanently (p : string) : Response :=
  mkResponse 301 "" (Some p) "".

(** [Router.ServeHTTP]. *)
Definition ServeHTTP (routes : list Route) (req : Request) : Response :=
  let p := cleanPath (Path req) in
  if negb (String.eqb p (Path req)) then movedPermanently p
  else
    let '(ok, m) := Router_Match routes req (mkMatch None None) in
    let h := if ok then MatchHandler m else None in
    let h := match h with
             | None => if is_method_mismatch (MatchError m)
                       then Some methodNotAllowed else None
             | Some _ => h
             end in
    match h with
    | None => NotFound req
    | Some f => f req
    end.

End mux.

(** ** The outside world *)

(** What [http.ListenAndServe] meets: the bind fails for some cause, or the
    listener is bound, answers the requests that arrive and ends with an
    error (the call never returns nil). *)
Inductive Serve : Type :=
| BindFails (cause : string)
| Serves (reqs : list Request) (err : error).

(** What [rootCmd.Execute()] makes of the command line: it runs the command,
    or handles the line itself (help), or refuses it. *)
Inductive Cobra : Type :=
| CobraRuns
| CobraHelp
| CobraFails (err : error).

Record World : Type := mkWorld {
  cobra : Cobra;
  dotenv : option error;                (* godotenv.Load() *)
  cache_set_now : Z;                    (* the clock inside c.Set, UnixNano *)
  cache_get_now : Z;                    (* the clock inside c.Get, UnixNano *)
  jwt_now : Z;                          (* time.Now() of line 86, UnixNano *)
  jwt_signer : string + error;          (* the HS256 signer with its hash *)
  proto_now : Z;                        (* timestamppb.Now() *)
  xml_fetch : xmlquery.Node + error;    (* xmlquery.LoadURL *)
  uuid_new : string + error;            (* uuid.NewUUID() *)
  snowflake_id : Z;                     (* sf.Generate() *)
  serve : Serve
}.

(** ** The program *)

Definition nl : string := String "010" "".

(** [s[:n]] on a Go string: a run-time panic when [n] exceeds the length. *)
Definition slice_to (s : string) (n : nat) : Run string :=
  if (n <=? String.length s)%nat then mret (String.substring 0 n s)
  else panic (PanicSliceBounds n (String.length s)).

(** [assert.True(nil, value, ...)]: reports through the nil [TestingT] only
    when the value is false. *)
Definition assert_True (value : bool) : Run bool :=
  if value then mret true else panic PanicNilDeref.

(** Lines 51-53. *)
Definition step_godotenv (w : World) : Run unit :=
  let _ := dotenv w in
  emit (EColor Green "✓ godotenv: Environment loaded" []).

(** Lines 55-59: the store after the three [SetDefault] calls. *)
Definition step_viper : Run viper.Viper :=
  let v := viper.SetDefault "app_name" (viper.VStr "bazel-demo-app") viper.New in
  let v := viper.SetDefault "port" (viper.VInt 5000) v in
  let v := viper.SetDefault "debug" (viper.VBool true) v in
  emit (EColor Green "✓ viper: Configuration set with defaults" []);;
  mret v.

(** Lines 61-68. *)
Definition step_yaml (v : viper.Viper) : Run Config :=
  let config := mkConfig (viper.GetString "app_name" v)
                         (viper.GetInt "port" v)
                         (viper.GetBool "debug" v) in
  emit (EColor Green "✓ yaml.v3: Config marshaled to YAML: %s" [AYaml config]);;
  mret config.

(** Lines 70-74. *)
Definition step_validator (config : Config) : Run unit :=
  match validator.Struct config with
  | [] => emit (EColor Green "✓ validator: Config validation passed" [])
  | _ :: _ => mret tt
  end.

(** The cache of lines 77-78, once the entry is stored. *)
Definition demo_cache (w : World) : cache.Cache :=
  let c := cache.New (5 * cache.Minute) (10 * cache.Minute) in
  cache.Set_ "demo-key" "demo-value" cache.DefaultExpiration (cache_set_now w) c.

(** Lines 76-81. *)
Definition step_cache (w : World) : Run unit :=
  let c := demo_cache w in
  match cache.Get "demo-key" (cache_get_now w) c with
  | Some val => emit (EColor Green "✓ go-cache: Retrieved value from cache: %s" [AStr val])
  | None => mret tt
  end.

(** [time.Second] and [time.Hour], in nanoseconds, and [t.Unix()] of a
    time given in nanoseconds since the epoch. *)
Definition time_Second : Z := 1000000000.
Definition time_Hour : Z := 3600 * time_Second.
Definition time_Unix (nanos : Z) : Z := nanos / time_Second.

(** The token of lines 84-87. *)
Definition demo_token (w : World) : jwt.Token :=
  jwt.NewWithClaims "HS256"
    [("user", jwt.CStr "demo-user");
     ("exp", jwt.CInt (time_Unix (jwt_now w + time_Hour * 24)))].

(** The key of line 88. *)
Definition demo_key : jwt.Key := jwt.KBytes "secret-key".

(** Lines 83-89. *)
Definition step_jwt (w : World) : Run unit :=
  let token := demo_token w in
  let '(tokenString, _) := jwt.SignedString token demo_key (jwt_signer w) in
  short ← slice_to tokenString 20;
  emit (EColor Green "✓ jwt-go: Generated JWT token (truncated): %s..." [AStr short]).

(** Lines 91-94. *)
Definition step_assert : Run unit :=
  let testValue := true in
  assert_True testValue;;
  emit (EColor Green "✓ testify/assert: Assertion passed" []).

(** Lines 96-103. *)
Definition step_protobuf (w : World) : Run unit :=
  emit (EColor Green "✓ protobuf: Created protobuf timestamp: %v" [ATime (proto_now w)]).

(** The last line [demonstrateNewDependencies] prints. *)
Definition demo_done : Event :=
  EColor Cyan "✓ cobra: CLI framework initialized (see rootCmd)" [].

(** [demonstrateNewDependencies], lines 50-110. *)
Definition demonstrateNewDependencies (w : World) : Run unit :=
  step_godotenv w;;
  v ← step_viper;
  config ← step_yaml v;
  step_validator config;;
  step_cache w;;
  step_jwt w;;
  step_assert;;
  step_protobuf w;;
  emit (EColor Yellow "✓ color: All dependencies demonstrated successfully!" []);;
  emit demo_done.

(** Go's [x, err := f(); if err != nil { panic(err) }]. *)
Definition or_panic {A} (r : A + error) : Run A :=
  match r with
  | inl a => mret a
  | inr err => panic (PanicErr err)
  end.

(** The router of lines 162-165. *)
Definition router : list mux.Route :=
  [ mux.Methods ["GET"] (mux.HandleFunc "/greet" handlers.Greet);
    mux.Methods ["GET"] (mux.HandleFunc "/greet-many" handlers.GreetMany) ].

Definition served (routes : list mux.Route) (req : Request) : Event :=
  EServed req (mux.ServeHTTP routes req).

(** The error of a failed bind: a [*net.OpError] around the cause. *)
Definition listen_error (address cause : string) : error :=
  ErrWrap ("listen tcp " +:+ address) (ErrNew cause).

(** [http.ListenAndServe(address, router)]: bind, then answer requests
    until the listener ends; the error it ends with is returned. *)
Definition http_ListenAndServe (address : string) (routes : list mux.Route)
    (s : Serve) : Run (option error) :=
  emit (EListen address);;
  match s with
  | BindFails cause => mret (Some (listen_error address cause))
  | Serves reqs err =>
      (EBound address :: (served routes <$> reqs), Ok (Some err))
  end.

Definition is_ErrServerClosed (err : option error) : bool :=
  match err with
  | Some e => errors_Is e ErrServerClosed
  | None => false
  end.

(** The startup message of line 169. *)
Definition started (address : string) : Event :=
  ELog ("server started at port %v" +:+ nl) [AStr address].

(** Lines 162-178: the router, the listener and how the process ends. *)
Definition serve_phase (w : World) : Run unit :=
  let address := ":5000" in
  emit (started address);;
  err ← http_ListenAndServe address router (serve w);
  if is_ErrServerClosed err then
    emit (ELog ("server closed" +:+ nl) [])
  else
    match err with
    | Some e =>
        emit (ELog ("error starting server: %s" +:+ nl) [AErr e]);;
        os_Exit 1
    | None => mret tt
    end.

(** Lines 129-160: the fetch, the identifiers and the attribute. *)
Definition legacy_phase (w : World) : Run unit :=
  wadl ← or_panic (xml_fetch w);
  let netrc := mkMachine "test" "test" "test" in
  emit (EPrintln (AMachine netrc));;
  emit (ELogrus "Hello world");;
  uuid ← or_panic (uuid_new w);
  emit (EPrintln (AUUID uuid));;
  sf ← or_panic (snowflake.NewNode 1);
  emit (EPrintln (AInt (snowflake_id w)));;
  let attr := xmlquery.FindOne_application_xmlns wadl in
  text ← xmlquery.InnerText attr;
  emit (EPrintln (AStr text)).

(** [runServer], lines 121-179. *)
Definition runServer (w : World) : Run unit :=
  emit (EPrintln (AStr "Hello world"));;
  emit (EColor Cyan (nl +:+ "=== Demonstrating New Dependencies ===") []);;
  demonstrateNewDependencies w;;
  emit (EColor Cyan ("=====================================" +:+ nl) []);;
  legacy_phase w;;
  serve_phase w.

(** [main], lines 181-187. *)
Definition main (w : World) : Run unit :=
  match cobra w with
  | CobraRuns => runServer w
  | CobraHelp => mret tt
  | CobraFails err => emit (EPrintln (AErr err));; os_Exit 1
  end.

(** * Properties *)

(** ** The effect monad *)

Section RunLemmas.
Context {A B : Type}.
Implicit Types (m : Run A) (k : A -> Run B).

Lemma trace_bind m k :
  trace (m ≫= k) =
  trace m ++ match result m with Ok a => trace (k a) | Stop _ => [] end.
Proof.
  destruct m as [tr [a|ab]]; cbn.
  - destruct (k a) as [tr' r]; reflexivity.
  - symmetry; apply app_nil_r.
Qed.

Lemma result_bind m k :
  result (m ≫= k) =
  match result m with Ok a => result (k a) | Stop ab => Stop ab end.
Proof.
  destruct m as [tr [a|ab]]; cbn; [|reflexivity].
  destruct (k a) as [tr' r]; reflexivity.
Qed.

End RunLemmas.

(** ** The demonstration sequence, step by step *)

Definition default_config : Config := mkConfig "bazel-demo-app" 5000 true.

Lemma step_viper_yaml :
  step_viper ≫= step_yaml =
  ([ EColor Green "✓ viper: Configuration set with defaults" [];
     EColor Green "✓ yaml.v3: Config marshaled to YAML: %s" [AYaml default_config] ],
   Ok default_config).
Proof. vm_compute. reflexivity. Qed.

(** The expiration time of the demo entry, and whether the read misses it. *)
Definition demo_expiration (w : World) : Z := cache_set_now w + 5 * cache.Minute.

Definition demo_cache_missed (w : World) : bool :=
  (0 <? demo_expiration w) && (demo_expiration w <? cache_get_now w).

Lemma demo_cache_items w :
  cache.items (demo_cache w) = {[ "demo-key" := cache.mkItem "demo-value" (demo_expiration w) ]}.
Proof. reflexivity. Qed.

Lemma demo_cache_get w :
  cache.Get "demo-key" (cache_get_now w) (demo_cache w) =
  if demo_cache_missed w then None else Some "demo-value".
Proof.
  unfold cache.Get. rewrite demo_cache_items, lookup_singleton_eq.
  reflexivity.
Qed.

Definition cache_line : Event :=
  EColor Green "✓ go-cache: Retrieved value from cache: %s" [AStr "demo-value"].

Lemma step_cache_eq w :
  step_cache w = (if demo_cache_missed w then [] else [cache_line], Ok tt).
Proof.
  unfold step_cache. rewrite demo_cache_get.
  destruct (demo_cache_missed w); reflexivity.
Qed.

Lemma step_validator_ok c : result (step_validator c) = Ok tt.
Proof. unfold step_validator. destruct (validator.Struct c); reflexivity. Qed.

Definition jwt_line : Event :=
  EColor Green "✓ jwt-go: Generated JWT token (truncated): %s..."
    [AStr "eyJhbGciOiJIUzI1NiIs"].

Lemma step_jwt_eq w :
  step_jwt w =
  match jwt_signer w with
  | inl _ => ([jwt_line], Ok tt)
  | inr _ => ([], Stop (Panic (PanicSliceBounds 20 0)))
  end.
Proof. unfold step_jwt. destruct (jwt_signer w); reflexivity. Qed.

(** What the demonstration prints before and after the token step. *)
Definition demo_head (w : World) : list Event :=
  [ EColor Green "✓ godotenv: Environment loaded" [];
    EColor Green "✓ viper: Configuration set with defaults" [];
    EColor Green "✓ yaml.v3: Config marshaled to YAML: %s" [AYaml default_config];
    EColor Green "✓ validator: Config validation passed" [] ]
  ++ (if demo_cache_missed w then [] else [cache_line]).

Definition demo_tail (w : World) : list Event :=
  [ jwt_line;
    EColor Green "✓ testify/assert: Assertion passed" [];
    EColor Green "✓ protobuf: Created protobuf timestamp: %v" [ATime (proto_now w)];
    EColor Yellow "✓ color: All dependencies demonstrated successfully!" [];
    demo_done ].

Lemma demo_eq w :
  demonstrateNewDependencies w =
  match jwt_signer w with
  | inl _ => (demo_head w ++ demo_tail w, Ok tt)
  | inr _ => (demo_head w, Stop (Panic (PanicSliceBounds 20 0)))
  end.
Proof.
  unfold demonstrateNewDependencies, demo_head, demo_tail.
  rewrite step_cache_eq, step_jwt_eq.
  destruct (jwt_signer w), (demo_cache_missed w); reflexivity.
Qed.

Lemma demo_head_quiet w : Forall (fun e => is_listener_event e = false) (demo_head w).
Proof.
  unfold demo_head. destruct (demo_cache_missed w); repeat constructor.
Qed.

Lemma demo_tail_quiet w : Forall (fun e => is_listener_event e = false) (demo_tail w).
Proof. repeat constructor. Qed.

Lemma demo_quiet w :
  Forall (fun e => is_listener_event e = false) (trace (demonstrateNewDependencies w)).
Proof.
  rewrite demo_eq. destruct (jwt_signer w); cbn [trace fst].
  - apply Forall_app; split; [apply demo_head_quiet | apply demo_tail_quiet].
  - apply demo_head_quiet.
Qed.

Lemma bind_assoc {A B C} (m : Run A) (f : A -> Run B) (g : B -> Run C) :
  (m ≫= f) ≫= g = m ≫= (fun x => f x ≫= g).
Proof.
  destruct m as [tr [a|ab]]; [|reflexivity].
  cbn. destruct (f a) as [tr1 [b|ab]]; cbn; [|reflexivity].
  destruct (g b) as [tr2 r]. by rewrite app_assoc.
Qed.

(** ** The run up to the listener, and the listener *)

(** Everything [runServer] does before line 162. *)
Definition prelude (w : World) : Run unit :=
  emit (EPrintln (AStr "Hello world"));;
  emit (EColor Cyan (nl +:+ "=== Demonstrating New Dependencies ===") []);;
  demonstrateNewDependencies w;;
  emit (EColor Cyan ("=====================================" +:+ nl) []);;
  legacy_phase w.

Lemma runServer_split w : runServer w = prelude w ≫= (fun _ => serve_phase w).
Proof.
  unfold runServer, prelude. by rewrite !bind_assoc.
Qed.

Definition is_inl {A B} (x : A + B) : bool :=
  match x with inl _ => true | inr _ => false end.

Lemma legacy_result w :
  result (legacy_phase w) =
  match xml_fetch w with
  | inr err => Stop (Panic (PanicErr err))
  | inl doc =>
      match uuid_new w with
      | inr err => Stop (Panic (PanicErr err))
      | inl _ =>
          match xmlquery.FindOne_application_xmlns doc with
          | None => Stop (Panic PanicNilDeref)
          | Some _ => Ok tt
          end
      end
  end.
Proof.
  unfold legacy_phase.
  destruct (xml_fetch w) as [doc|err]; [|reflexivity].
  destruct (uuid_new w) as [u|err]; [|reflexivity].
  unfold xmlquery.FindOne_application_xmlns. cbn.
  destruct (xmlquery.find_below doc); reflexivity.
Qed.

Lemma legacy_quiet w :
  Forall (fun e => is_listener_event e = false) (trace (legacy_phase w)).
Proof.
  unfold legacy_phase.
  destruct (xml_fetch w) as [doc|err]; [|constructor].
  destruct (uuid_new w) as [u|err]; [|repeat constructor].
  unfold xmlquery.FindOne_application_xmlns. cbn.
  destruct (xmlquery.find_below doc); repeat constructor.
Qed.

Lemma prelude_result w :
  result (prelude w) =
  match result (demonstrateNewDependencies w) with
  | Ok _ => result (legacy_phase w)
  | Stop ab => Stop ab
  end.
Proof.
  unfold prelude. rewrite !result_bind. cbn [result emit snd]. reflexivity.
Qed.

Lemma prelude_trace w :
  exists rest,
    trace (prelude w) =
    [ EPrintln (AStr "Hello world");
      EColor Cyan (nl +:+ "=== Demonstrating New Dependencies ===") [] ]
    ++ trace (demonstrateNewDependencies w) ++ rest
    /\ Forall (fun e => is_listener_event e = false) rest.
Proof.
  unfold prelude. rewrite !trace_bind. cbn [emit trace result fst snd].
  destruct (result (demonstrateNewDependencies w)).
  - eexists; split; [reflexivity|].
    constructor; [reflexivity | apply legacy_quiet].
  - exists []. split; [reflexivity | constructor].
Qed.

Lemma prelude_quiet w :
  Forall (fun e => is_listener_event e = false) (trace (prelude w)).
Proof.
  destruct (prelude_trace w) as (rest & -> & Hrest).
  repeat (apply Forall_app; split); [repeat constructor | apply demo_quiet | done].
Qed.

Definition closed_line : Event := ELog ("server closed" +:+ nl) [].
Definition failed_line (err : error) : Event :=
  ELog ("error starting server: %s" +:+ nl) [AErr err].

Lemma listen_error_not_closed address cause :
  errors_Is (listen_error address cause) ErrServerClosed = false.
Proof. reflexivity. Qed.

Lemma serve_phase_eq w :
  serve_phase w =
  match serve w with
  | BindFails cause =>
      ([started ":5000"; EListen ":5000"; failed_line (listen_error ":5000" cause)],
       Stop (OsExit 1))
  | Serves reqs err =>
      (started ":5000" :: EListen ":5000" :: EBound ":5000"
         :: (served router <$> reqs)
         ++ [if errors_Is err ErrServerClosed then closed_line else failed_line err],
       if errors_Is err ErrServerClosed then Ok tt else Stop (OsExit 1))
  end.
Proof.
  unfold serve_phase. destruct (serve w) as [cause|reqs err].
  - reflexivity.
  - cbn. destruct (errors_Is err ErrServerClosed); cbn; by rewrite ?app_nil_r.
Qed.

(** ** The router *)

Lemma method_allowed_GET r req :
  mux.methods r = Some ["GET"] ->
  mux.method_allowed r req = String.eqb (Method req) "GET".
Proof.
  intros Hm. unfold mux.method_allowed. rewrite Hm.
  destruct (String.eqb_spec (Method req) "GET") as [->|Hne].
  - apply bool_decide_eq_true_2. by apply list_elem_of_singleton.
  - apply bool_decide_eq_false_2. by rewrite list_elem_of_singleton.
Qed.

(** What the router answers, by path and method. *)
Definition dispatch (req : Request) : Response :=
  if negb (String.eqb (mux.cleanPath (Path req)) (Path req)) then
    mux.movedPermanently (mux.cleanPath (Path req))
  else if String.eqb (Path req) "/greet" then
    if String.eqb (Method req) "GET" then handlers.Greet req
    else mux.methodNotAllowed req
  else if String.eqb (Path req) "/greet-many" then
    if String.eqb (Method req) "GET" then handlers.GreetMany req
    else mux.methodNotAllowed req
  else mux.NotFound req.

Lemma router_dispatch req : mux.ServeHTTP router req = dispatch req.
Proof.
  unfold mux.ServeHTTP, dispatch.
  destruct (negb (String.eqb (mux.cleanPath (Path req)) (Path req))); [reflexivity|].
  unfold router. cbn [mux.Router_Match]. unfold mux.Route_Match.
  rewrite !(method_allowed_GET _ req) by reflexivity.
  cbn [mux.template mux.Methods mux.HandleFunc mux.handler mux.MatchHandler
       mux.MatchError mux.is_not_found mux.is_method_mismatch].
  destruct (String.eqb_spec (Path req) "/greet") as [Hp|Hp].
  - rewrite Hp. destruct (String.eqb (Method req) "GET"); reflexivity.
  - destruct (String.eqb (Path req) "/greet-many");
      destruct (String.eqb (Method req) "GET"); reflexivity.
Qed.

Lemma query_get_find key q :
  handlers.query_get key q =
  match List.find (fun kv => String.eqb kv.1 key) q with
  | Some kv => kv.2
  | None => ""
  end.
Proof.
  unfold handlers.query_get, handlers.query_values.
  induction q as [|[k v] q IH]; [reflexivity|].
  cbn. destruct (String.eqb k key); [reflexivity | exact IH].
Qed.

(** C2.  Every GET request to [/greet] is answered with status 200,
    content type text/plain and the body "Hello, <name>!", where <name> is
    the first value of the query parameter [name], or "World" when the
    request has no such parameter or its value is empty.  ([handlers.Greet]
    is modelled from the spec.) *)
Theorem greet_get_response (req : Request) :
  Method req = "GET" ->
  Path req = "/greet" ->
  mux.ServeHTTP router req =
  mkResponse 200 "text/plain" None
    ("Hello, "
     +:+ match List.find (fun kv => String.eqb kv.1 "name") (Query req) with
         | Some kv => if String.eqb kv.2 "" then "World" else kv.2
         | None => "World"
         end
     +:+ "!").
Proof.
  intros Hm Hp. rewrite router_dispatch. unfold dispatch.
  rewrite Hp, Hm. cbn [negb]. change (mux.cleanPath "/greet") with "/greet".
  cbn [String.eqb Ascii.eqb Bool.eqb negb].
  unfold handlers.Greet, handlers.text_plain, handlers.hello.
  rewrite query_get_find.
  destruct (List.find _ (Query req)) as [kv|]; reflexivity.
Qed.

Lemma greet_get_response_witness :
  let req := mkRequest "GET" "/greet" [("lang", "en"); ("name", "Ada")] in
  Method req = "GET" /\ Path req = "/greet" /\
  mux.ServeHTTP router req = mkResponse 200 "text/plain" None "Hello, Ada!".
Proof.
  intros req. split; [reflexivity|]. split; [reflexivity|].
  exact (greet_get_response req eq_refl eq_refl).
Defined.

(** C5, as the claim states it, fails: a POST to [/greet] is answered with
    405 Method Not Allowed, not with 404. *)
Lemma router_post_greet_405 :
  let req := mkRequest "POST" "/greet" [] in
  Method req <> "GET" /\
  Status (mux.ServeHTTP router req) = 405 /\
  Status (mux.ServeHTTP router req) <> 404.
Proof. intros req. repeat split; [discriminate | discriminate]. Qed.

(** C5, amended.  The router has two routes: GET [/greet] goes to [Greet]
    and GET [/greet-many] to [GreetMany].  A request for one of these two
    paths with another method is answered with 405; a request whose path is
    in canonical form and is neither of the two is answered with the
    standard 404; a request whose path is not in canonical form is
    redirected (301) to the canonical path. *)
Theorem router_routes (req : Request) :
  (Method req = "GET" -> Path req = "/greet" ->
   mux.ServeHTTP router req = handlers.Greet req) /\
  (Method req = "GET" -> Path req = "/greet-many" ->
   mux.ServeHTTP router req = handlers.GreetMany req) /\
  (Method req <> "GET" -> Path req = "/greet" \/ Path req = "/greet-many" ->
   mux.ServeHTTP router req = mux.methodNotAllowed req /\
   Status (mux.ServeHTTP router req) = 405) /\
  (mux.cleanPath (Path req) = Path req ->
   Path req <> "/greet" -> Path req <> "/greet-many" ->
   mux.ServeHTTP router req = mux.NotFound req /\
   Status (mux.ServeHTTP router req) = 404) /\
  (mux.cleanPath (Path req) <> Path req ->
   mux.ServeHTTP router req = mux.movedPermanently (mux.cleanPath (Path req)) /\
   Status (mux.ServeHTTP router req) = 301).
Proof.
  rewrite router_dispatch. unfold dispatch.
  repeat apply conj.
  - intros -> ->. reflexivity.
  - intros -> ->. reflexivity.
  - intros Hm Hp.
    assert (String.eqb (Method req) "GET" = false) as ->
      by (by apply String.eqb_neq).
    destruct Hp as [-> | ->]; split; reflexivity.
  - intros Hc Hp1 Hp2.
    rewrite Hc, String.eqb_refl. cbn [negb].
    apply String.eqb_neq in Hp1, Hp2. rewrite Hp1, Hp2. split; reflexivity.
  - intros Hc. apply String.eqb_neq in Hc. rewrite Hc. split; reflexivity.
Qed.

Lemma router_routes_witness :
  mux.ServeHTTP router (mkRequest "GET" "/greet-many" [("name", "B"); ("name", "A")])
  = mkResponse 200 "text/plain" None ("Hello, B!" +:+ nl +:+ "Hello, A!")
  /\ Status (mux.ServeHTTP router (mkRequest "DELETE" "/greet-many" [])) = 405
  /\ Status (mux.ServeHTTP router (mkRequest "GET" "/unknown" [])) = 404
  /\ Status (mux.ServeHTTP router (mkRequest "GET" "/greet/" [])) = 404
  /\ mux.ServeHTTP router (mkRequest "GET" "//greet" [])
     = mux.movedPermanently "/greet".
Proof.
  repeat apply conj.
  - exact (proj1 (proj2 (router_routes (mkRequest "GET" "/greet-many" _)))
             eq_refl eq_refl).
  - refine (proj2 (proj1 (proj2 (proj2 (router_routes (mkRequest "DELETE" "/greet-many" [])))) _ _)).
    + discriminate.
    + right; reflexivity.
  - refine (proj2 (proj1 (proj2 (proj2 (proj2 (router_routes (mkRequest "GET" "/unknown" []))))) _ _ _)).
    + reflexivity.
    + discriminate.
    + discriminate.
  - refine (proj2 (proj1 (proj2 (proj2 (proj2 (router_routes (mkRequest "GET" "/greet/" []))))) _ _ _)).
    + reflexivity.
    + discriminate.
    + discriminate.
  - refine (proj1 (proj2 (proj2 (proj2 (proj2 (router_routes (mkRequest "GET" "//greet" []))))) _)).
    discriminate.
Defined.

(** ** The demonstration steps *)

Lemma validator_Struct_nil c :
  validator.Struct c = [] <-> AppName c <> "" /\ 1000 <= Port c <= 65535.
Proof.
  unfold validator.Struct, validator.Config_fields, validator.validate_fields.
  cbn [omap list_omap validator.first_failure validator.check].
  destruct (String.eqb_spec (AppName c) "") as [Hn|Hn]; cbn [negb].
  - split; [discriminate | intros [? _]; done].
  - destruct (Z.eqb_spec (Port c) 0) as [H0|H0]; cbn [negb].
    + split; [discriminate | lia].
    + destruct (Z.leb_spec 1000 (Port c)).
      * destruct (Z.leb_spec (Port c) 65535).
        -- split; [intros _; repeat split; done | reflexivity].
        -- split; [discriminate | lia].
      * split; [discriminate | lia].
Qed.

(** C9.  The configuration built at startup has the application name
    "bazel-demo-app", the port 5000 and the debug flag set.  The validation
    step runs [validate.Struct] on the configuration it is given: it accepts
    it, and prints the line that says so, exactly when the name is not empty
    and the port lies in [1000, 65535]; otherwise it prints nothing.  The
    configuration of every run is the one built from the defaults and passes
    the validation. *)
Theorem demo_config_defaults_and_constraints :
  result (step_viper ≫= step_yaml) = Ok (mkConfig "bazel-demo-app" 5000 true)
  /\ (forall c : Config,
        validator.Struct c = [] <-> AppName c <> "" /\ 1000 <= Port c <= 65535)
  /\ (forall c : Config,
        (AppName c <> "" /\ 1000 <= Port c <= 65535 ->
         step_validator c =
         ([EColor Green "✓ validator: Config validation passed" []], Ok tt))
        /\ (~ (AppName c <> "" /\ 1000 <= Port c <= 65535) ->
            step_validator c = ([], Ok tt)))
  /\ (forall w : World,
        demonstrateNewDependencies w =
        (step_godotenv w;;
         (step_viper ≫= step_yaml) ≫= (fun config =>
         step_validator config;;
         step_cache w;; step_jwt w;; step_assert;; step_protobuf w;;
         emit (EColor Yellow "✓ color: All dependencies demonstrated successfully!" []);;
         emit demo_done)))
  /\ (forall w : World,
        EColor Green "✓ yaml.v3: Config marshaled to YAML: %s"
          [AYaml (mkConfig "bazel-demo-app" 5000 true)]
          ∈ trace (demonstrateNewDependencies w)
        /\ EColor Green "✓ validator: Config validation passed" []
          ∈ trace (demonstrateNewDependencies w)).
Proof.
  split; [by rewrite step_viper_yaml|]. split; [apply validator_Struct_nil|].
  split.
  { intros c. unfold step_validator. split.
    - intros Hv. apply validator_Struct_nil in Hv. by rewrite Hv.
    - intros Hv. destruct (validator.Struct c) eqn:Hs; [|reflexivity].
      by apply validator_Struct_nil in Hs. }
  split.
  { intros w. unfold demonstrateNewDependencies. by rewrite bind_assoc. }
  intros w. rewrite demo_eq.
  assert (forall e, e ∈ demo_head w ->
            e ∈ trace (match jwt_signer w with
                       | inl _ => (demo_head w ++ demo_tail w, Ok tt)
                       | inr _ => (demo_head w, @Stop unit (Panic (PanicSliceBounds 20 0)))
                       end)) as Hhead.
  { intros e He. destruct (jwt_signer w); cbn [trace fst]; [|done].
    apply elem_of_app. by left. }
  split; apply Hhead; unfold demo_head, default_config;
    rewrite elem_of_app; left; rewrite !elem_of_cons; tauto.
Qed.



(** C8, as the claim states it, fails: when the read comes more than five
    minutes after the write the entry is missed and nothing is logged. *)
Lemma cache_miss_not_logged :
  let w := mkWorld CobraRuns None 1000 (1000 + 6 * cache.Minute) 1700000000
             (inl "e30.sig") 0
             (inr (ErrNew "unreachable")) (inl "u") 0
             (Serves [] ErrServerClosed) in
  cache.Get "demo-key" (cache_get_now w) (demo_cache w) = None
  /\ step_cache w = ([], Ok tt).
Proof. intros w. split; reflexivity. Qed.

(** C8, amended.  The cache step stores exactly one entry, "demo-key" with
    the value "demo-value", expiring five minutes after the write, and reads
    it back at once.  When the read finds the entry one line with the value
    is printed; when it misses (the expiration time is positive and already
    past) nothing is printed.  In both cases the step returns and the run
    goes on. *)
Theorem cache_step_outcome (w : World) :
  cache.items (demo_cache w) =
    {[ "demo-key" := cache.mkItem "demo-value" (cache_set_now w + 5 * cache.Minute) ]}
  /\ cache.Get "demo-key" (cache_get_now w) (demo_cache w) =
     (if (0 <? cache_set_now w + 5 * cache.Minute)
         && (cache_set_now w + 5 * cache.Minute <? cache_get_now w)
      then None else Some "demo-value")
  /\ step_cache w =
     (if (0 <? cache_set_now w + 5 * cache.Minute)
         && (cache_set_now w + 5 * cache.Minute <? cache_get_now w)
      then []
      else [EColor Green "✓ go-cache: Retrieved value from cache: %s" [AStr "demo-value"]],
      Ok tt).
Proof.
  split; [apply demo_cache_items|].
  split; [apply demo_cache_get | apply step_cache_eq].
Qed.

(** ** The whole run *)

(** [http.ListenAndServe] is called in the run. *)
Definition reaches_listener (w : World) : bool :=
  bool_decide (EListen ":5000" ∈ trace (runServer w)).

(** The listener fails: the bind fails, or the listener ends with an error
    other than the server-closed one. *)
Definition listener_fails (w : World) : bool :=
  match serve w with
  | BindFails _ => true
  | Serves _ err => negb (errors_Is err ErrServerClosed)
  end.

Lemma quiet_not_listener tr e :
  Forall (fun e => is_listener_event e = false) tr ->
  is_listener_event e = true -> e ∉ tr.
Proof.
  intros Hq He Hin. rewrite Forall_forall in Hq.
  specialize (Hq e Hin). congruence.
Qed.

Lemma serve_phase_listens w : EListen ":5000" ∈ trace (serve_phase w).
Proof.
  rewrite serve_phase_eq. destruct (serve w); cbn [trace fst];
    rewrite !elem_of_cons; tauto.
Qed.

Lemma runServer_trace w :
  trace (runServer w) =
  trace (prelude w) ++
  match result (prelude w) with Ok _ => trace (serve_phase w) | Stop _ => [] end.
Proof. by rewrite runServer_split, trace_bind. Qed.

Lemma runServer_result w :
  result (runServer w) =
  match result (prelude w) with Ok _ => result (serve_phase w) | Stop ab => Stop ab end.
Proof. by rewrite runServer_split, result_bind. Qed.

Lemma reaches_listener_prelude w :
  reaches_listener w = true <-> result (prelude w) = Ok tt.
Proof.
  unfold reaches_listener. rewrite bool_decide_eq_true, runServer_trace.
  destruct (result (prelude w)) as [[]|ab].
  - split; [done|]. intros _. apply elem_of_app. right. apply serve_phase_listens.
  - rewrite app_nil_r. split; [|done]. intros Hin.
    by destruct (quiet_not_listener _ (EListen ":5000") (prelude_quiet w) eq_refl Hin).
Qed.

Lemma serve_phase_result w :
  result (serve_phase w) = if listener_fails w then Stop (OsExit 1) else Ok tt.
Proof.
  rewrite serve_phase_eq. unfold listener_fails.
  destruct (serve w) as [cause|reqs err]; [reflexivity|].
  cbn [result snd]. destruct (errors_Is err ErrServerClosed); reflexivity.
Qed.

Lemma demo_result w :
  result (demonstrateNewDependencies w) =
  if is_inl (jwt_signer w) then Ok tt else Stop (Panic (PanicSliceBounds 20 0)).
Proof. rewrite demo_eq. destruct (jwt_signer w); reflexivity. Qed.

(** C3.  Once the listener is reached, the process exits with code 0 when
    the serve call returns the server-closed error, and with code 1 when the
    bind fails or the listener ends with any other error. *)
Theorem exit_code_of_listener (w : World) :
  cobra w = CobraRuns ->
  reaches_listener w = true ->
  exit_code (result (main w)) =
  match serve w with
  | BindFails _ => 1
  | Serves _ err => if errors_Is err ErrServerClosed then 0 else 1
  end.
Proof.
  intros Hc Hr. unfold main. rewrite Hc.
  apply reaches_listener_prelude in Hr.
  rewrite runServer_result, Hr, serve_phase_result. unfold listener_fails.
  destruct (serve w) as [cause|reqs err]; [reflexivity|].
  destruct (errors_Is err ErrServerClosed); reflexivity.
Qed.

(** *** Sample worlds *)

(** A document with the queried attribute, and one without. *)
Definition doc_wadl : xmlquery.Node :=
  xmlquery.mkNode xmlquery.DocumentNode "" "" []
    [ xmlquery.mkNode xmlquery.DeclarationNode "xml" "" [] [];
      xmlquery.mkNode xmlquery.ElementNode "application" ""
        [xmlquery.mkAttr "" "xmlns" "http://wadl.dev.java.net/2009/02"]
        [xmlquery.mkNode xmlquery.ElementNode "resources" "" [] []] ].

Definition doc_plain : xmlquery.Node :=
  xmlquery.mkNode xmlquery.DocumentNode "" "" []
    [ xmlquery.mkNode xmlquery.ElementNode "html" "" []
        [xmlquery.mkNode xmlquery.TextNode "hello" "" [] []] ].

Definition sample_requests : list Request :=
  [ mkRequest "GET" "/greet" [("name", "Ada")];
    mkRequest "GET" "/greet-many" [("name", "Ada"); ("name", "Grace")];
    mkRequest "GET" "/unknown" [] ].

(** Every step succeeds and the listener is closed in the end. *)
Definition world_closed : World :=
  mkWorld CobraRuns None 1000 2000 1700000000123456789 (inl "eyJleHAiOjF9.c2ln")
    1700000000 (inl doc_wadl) (inl "6ba7b810-9dad-11d1-80b4-00c04fd430c8")
    1541815603606036480 (Serves sample_requests ErrServerClosed).

Definition with_serve (s : Serve) (w : World) : World :=
  mkWorld (cobra w) (dotenv w) (cache_set_now w) (cache_get_now w) (jwt_now w)
    (jwt_signer w) (proto_now w) (xml_fetch w) (uuid_new w) (snowflake_id w) s.

Definition with_xml_fetch (x : xmlquery.Node + error) (w : World) : World :=
  mkWorld (cobra w) (dotenv w) (cache_set_now w) (cache_get_now w) (jwt_now w)
    (jwt_signer w) (proto_now w) x (uuid_new w) (snowflake_id w) (serve w).

(** The address is in use. *)
Definition world_bind_fails : World :=
  with_serve (BindFails "bind: address already in use") world_closed.

(** The listener ends with an error of its own. *)
Definition world_listener_error : World :=
  with_serve (Serves sample_requests (ErrNew "accept tcp [::]:5000: too many open files"))
    world_closed.

(** The fetch of the XML document fails. *)
Definition world_fetch_fails : World :=
  with_xml_fetch (inr (ErrNew "Get https://httpbin.org/get: dial tcp: no such host"))
    world_closed.

(** The fetched document has no [application] element. *)
Definition world_no_attr : World := with_xml_fetch (inl doc_plain) world_closed.

Lemma exit_code_of_listener_witness :
  (cobra world_closed = CobraRuns /\ reaches_listener world_closed = true /\
   exit_code (result (main world_closed)) = 0)
  /\ exit_code (result (main world_bind_fails)) = 1
  /\ exit_code (result (main world_listener_error)) = 1.
Proof.
  repeat apply conj.
  - reflexivity.
  - vm_compute. reflexivity.
  - apply (exit_code_of_listener world_closed); vm_compute; reflexivity.
  - apply (exit_code_of_listener world_bind_fails); vm_compute; reflexivity.
  - apply (exit_code_of_listener world_listener_error); vm_compute; reflexivity.
Defined.

Lemma prelude_result_cases w :
  result (prelude w) =
  if is_inl (jwt_signer w) then result (legacy_phase w)
  else Stop (Panic (PanicSliceBounds 20 0)).
Proof.
  rewrite prelude_result, demo_result. destruct (is_inl (jwt_signer w)); reflexivity.
Qed.

(** C1, as the claim states it, fails: when the fetch of the XML document
    fails the process panics, although the listener is never called. *)
Lemma fetch_failure_is_fatal :
  is_inl (xml_fetch world_fetch_fails) = false
  /\ fatal (result (runServer world_fetch_fails)) = true
  /\ exit_code (result (main world_fetch_fails)) = 2
  /\ reaches_listener world_fetch_fails = false
  /\ listener_fails world_fetch_fails = false.
Proof. repeat apply conj; vm_compute; reflexivity. Qed.

(** C1, amended.  The environment load, the validation of the
    configuration and the read-back from the cache return whatever their
    outcome, so none of them ends the process.  When the token is signed and
    the fetched document has the queried attribute, the process ends on a
    fatal path exactly when the XML fetch or the UUID generation fails (each
    followed by an explicit [panic(err)]) or when the listener fails: the
    bind fails or the listener ends with an error other than the
    server-closed one (exit code 1). *)
Theorem fatal_paths (w : World) :
  is_inl (jwt_signer w) = true ->
  (forall doc, xml_fetch w = inl doc ->
               is_Some (xmlquery.FindOne_application_xmlns doc)) ->
  result (step_godotenv w) = Ok tt
  /\ (forall c : Config, result (step_validator c) = Ok tt)
  /\ result (step_cache w) = Ok tt
  /\ (fatal (result (runServer w)) = true <->
      is_inl (xml_fetch w) = false \/ is_inl (uuid_new w) = false
      \/ listener_fails w = true)
  /\ (is_inl (xml_fetch w) = false \/ is_inl (uuid_new w) = false ->
      panicked (result (runServer w)) = true)
  /\ (is_inl (xml_fetch w) = true -> is_inl (uuid_new w) = true ->
      listener_fails w = true -> result (runServer w) = Stop (OsExit 1)).
Proof.
  intros Hjwt Hattr.
  split; [reflexivity|]. split; [apply step_validator_ok|].
  split; [by rewrite step_cache_eq|].
  rewrite runServer_result, prelude_result_cases, Hjwt, legacy_result.
  destruct (xml_fetch w) as [doc|err]; cbn [is_inl].
  - destruct (Hattr doc eq_refl) as [a ->].
    destruct (uuid_new w) as [u|err]; cbn [is_inl].
    + rewrite serve_phase_result.
      destruct (listener_fails w); cbn [fatal panicked]; intuition congruence.
    + cbn [fatal panicked]. intuition congruence.
  - cbn [fatal panicked]. intuition congruence.
Qed.

Lemma fatal_paths_witness :
  (is_inl (jwt_signer world_closed) = true /\
   fatal (result (runServer world_closed)) = false)
  /\ result (runServer world_bind_fails) = Stop (OsExit 1).
Proof.
  assert (forall s doc, xml_fetch (with_serve s world_closed) = inl doc ->
            is_Some (xmlquery.FindOne_application_xmlns doc)) as Hattr.
  { intros s doc H. cbn in H. injection H as <-. vm_compute. eauto. }
  split; [split; [reflexivity|]|].
  - destruct (fatal_paths world_closed eq_refl (Hattr (serve world_closed)))
      as (_ & _ & _ & Hiff & _).
    destruct (fatal (result (runServer world_closed))); [|reflexivity].
    destruct (proj1 Hiff eq_refl) as [Hf|[Hf|Hf]]; discriminate Hf.
  - destruct (fatal_paths world_bind_fails eq_refl (Hattr (serve world_bind_fails)))
      as (_ & _ & _ & _ & _ & Hexit).
    apply Hexit; reflexivity.
Defined.

(** C10.  When the fetch succeeds and the document has no attribute
    [xmlns] on an [application] element, the program panics before the
    listener is called: the result of the query is nil and [InnerText] is
    called on it. *)
Theorem missing_attribute_panics (w : World) (doc : xmlquery.Node) :
  xml_fetch w = inl doc ->
  xmlquery.FindOne_application_xmlns doc = None ->
  panicked (result (runServer w)) = true
  /\ reaches_listener w = false
  /\ (is_inl (jwt_signer w) = true -> is_inl (uuid_new w) = true ->
      result (runServer w) = Stop (Panic PanicNilDeref)).
Proof.
  intros Hx Hnone.
  assert (result (prelude w) =
          if is_inl (jwt_signer w) then
            match uuid_new w with
            | inr err => Stop (Panic (PanicErr err))
            | inl _ => Stop (Panic PanicNilDeref)
            end
          else Stop (Panic (PanicSliceBounds 20 0))) as Hp.
  { rewrite prelude_result_cases, legacy_result, Hx, Hnone. reflexivity. }
  split; [|split].
  - rewrite runServer_result, Hp.
    destruct (is_inl (jwt_signer w)), (uuid_new w); reflexivity.
  - destruct (reaches_listener w) eqn:Hr; [|reflexivity].
    apply reaches_listener_prelude in Hr. rewrite Hp in Hr.
    destruct (is_inl (jwt_signer w)), (uuid_new w); discriminate Hr.
  - intros Hj Hu. rewrite runServer_result, Hp, Hj.
    destruct (uuid_new w); [reflexivity | discriminate Hu].
Qed.

Lemma missing_attribute_panics_witness :
  xml_fetch world_no_attr = inl doc_plain
  /\ xmlquery.FindOne_application_xmlns doc_plain = None
  /\ result (runServer world_no_attr) = Stop (Panic PanicNilDeref)
  /\ reaches_listener world_no_attr = false.
Proof.
  split; [reflexivity|]. split; [reflexivity|].
  destruct (missing_attribute_panics world_no_attr doc_plain eq_refl eq_refl)
    as (_ & Hr & Hp).
  split; [exact (Hp eq_refl eq_refl) | exact Hr].
Defined.

(** C6, as the claim states it, fails: when the bind fails the startup
    message has already been logged, before [ListenAndServe] was called. *)
Lemma started_logged_on_bind_failure :
  serve world_bind_fails = BindFails "bind: address already in use"
  /\ (started ":5000" ∈ trace (runServer world_bind_fails))
  /\ (EBound ":5000" ∉ trace (runServer world_bind_fails))
  /\ exists pre,
       trace (runServer world_bind_fails) =
       pre ++ [ started ":5000"; EListen ":5000";
                failed_line (listen_error ":5000" "bind: address already in use") ].
Proof.
  split; [reflexivity|].
  split; [apply (bool_decide_unpack _); vm_compute; exact I|].
  split; [apply (bool_decide_unpack _); vm_compute; exact I|].
  eexists (trace (prelude world_bind_fails)).
  vm_compute. reflexivity.
Qed.

(** C6, amended.  The startup message with the address is logged right
    before [http.ListenAndServe] is called, hence before the bind and
    whatever its outcome; no event of the listener comes before it.  When
    the bind fails, no listener is bound and no request is answered: the
    error is logged and the process exits with code 1.  When it succeeds,
    the listener is bound after the message and then answers the requests. *)
Theorem started_before_listen (w : World) :
  reaches_listener w = true ->
  exists pre post,
    trace (runServer w) = pre ++ started ":5000" :: EListen ":5000" :: post
    /\ Forall (fun e => is_listener_event e = false) pre
    /\ match serve w with
       | BindFails cause =>
           post = [failed_line (listen_error ":5000" cause)]
           /\ result (runServer w) = Stop (OsExit 1)
       | Serves reqs err =>
           exists last_line,
             post = EBound ":5000" :: (served router <$> reqs) ++ [last_line]
       end.
Proof.
  intros Hr. apply reaches_listener_prelude in Hr.
  exists (trace (prelude w)).
  assert (trace (runServer w) = trace (prelude w) ++ trace (serve_phase w)) as Htr
    by (by rewrite runServer_trace, Hr).
  assert (result (runServer w) = result (serve_phase w)) as Hres
    by (by rewrite runServer_result, Hr).
  rewrite Htr, Hres, serve_phase_eq.
  destruct (serve w) as [cause|reqs err]; cbn [trace result fst snd].
  - eexists. split; [reflexivity|]. split; [apply prelude_quiet|]. done.
  - eexists. split; [reflexivity|]. split; [apply prelude_quiet|]. eauto.
Qed.

Lemma started_before_listen_witness :
  reaches_listener world_bind_fails = true
  /\ exists pre,
       trace (runServer world_bind_fails) =
       pre ++ [ started ":5000"; EListen ":5000";
                failed_line (listen_error ":5000" "bind: address already in use") ]
       /\ result (runServer world_bind_fails) = Stop (OsExit 1).
Proof.
  assert (reaches_listener world_bind_fails = true) as Hr
    by (vm_compute; reflexivity).
  split; [exact Hr|].
  destruct (started_before_listen world_bind_fails Hr)
    as (pre & post & Htr & _ & Hpost & Hres).
  exists pre. split; [|exact Hres].
  rewrite Htr, Hpost. reflexivity.
Defined.

(** The two lines [runServer] prints before the demonstration, and the one
    after it. *)
Definition opening : list Event :=
  [ EPrintln (AStr "Hello world");
    EColor Cyan (nl +:+ "=== Demonstrating New Dependencies ===") [] ].

Definition closing : Event :=
  EColor Cyan ("=====================================" +:+ nl) [].

Lemma prelude_trace_eq w :
  trace (prelude w) =
  opening ++ trace (demonstrateNewDependencies w) ++
  match result (demonstrateNewDependencies w) with
  | Ok _ => closing :: trace (legacy_phase w)
  | Stop _ => []
  end.
Proof.
  unfold prelude. rewrite !trace_bind. cbn [emit trace result fst snd].
  destruct (result (demonstrateNewDependencies w)); reflexivity.
Qed.

Lemma legacy_trace w :
  trace (legacy_phase w) =
  match xml_fetch w with
  | inr _ => []
  | inl doc =>
      EPrintln (AMachine (mkMachine "test" "test" "test")) :: ELogrus "Hello world" ::
      match uuid_new w with
      | inr _ => []
      | inl u =>
          EPrintln (AUUID u) :: EPrintln (AInt (snowflake_id w)) ::
          match xmlquery.FindOne_application_xmlns doc with
          | None => []
          | Some a => [EPrintln (AStr (xmlquery.Value a))]
          end
      end
  end.
Proof.
  unfold legacy_phase.
  destruct (xml_fetch w) as [doc|err]; [|reflexivity].
  destruct (uuid_new w) as [u|err]; [|reflexivity].
  unfold xmlquery.FindOne_application_xmlns. cbn.
  destruct (xmlquery.find_below doc); reflexivity.
Qed.

(** C4.  Whenever an event of the listener (the call, the bind, a request
    answered) occurs in a run, every startup step has returned before it:
    the demonstration sequence, whose output ends with its last line, and
    the fetch, the identifiers and the attribute of lines 129-160.  The
    trace up to the startup message is the output of these steps and has no
    listener event; the listener events all lie in what [serve_phase] adds
    after it. *)
Theorem demo_completes_before_listener (w : World) (i : nat) (e : Event) :
  trace (runServer w) !! i = Some e ->
  is_listener_event e = true ->
  result (demonstrateNewDependencies w) = Ok tt
  /\ last (trace (demonstrateNewDependencies w)) = Some demo_done
  /\ result (legacy_phase w) = Ok tt
  /\ trace (runServer w) =
     opening ++ trace (demonstrateNewDependencies w)
     ++ closing :: trace (legacy_phase w) ++ trace (serve_phase w)
  /\ Forall (fun e' => is_listener_event e' = false)
       (opening ++ trace (demonstrateNewDependencies w)
        ++ closing :: trace (legacy_phase w))
  /\ (length (opening ++ trace (demonstrateNewDependencies w)
              ++ closing :: trace (legacy_phase w)) < i)%nat.
Proof.
  intros Hi He.
  assert (length (trace (prelude w)) <= i)%nat as Hlen.
  { rewrite runServer_trace in Hi.
    destruct (decide (i < length (trace (prelude w)))%nat) as [Hlt|]; [|lia].
    rewrite lookup_app_l in Hi by done.
    apply list_elem_of_lookup_2 in Hi.
    by destruct (quiet_not_listener _ e (prelude_quiet w) He Hi). }
  assert (result (prelude w) = Ok tt) as Hok.
  { rewrite runServer_trace in Hi.
    destruct (result (prelude w)) as [[]|ab]; [done|].
    rewrite app_nil_r in Hi. apply lookup_lt_Some in Hi. lia. }
  assert (is_inl (jwt_signer w) = true) as Hjwt.
  { rewrite prelude_result_cases in Hok.
    destruct (is_inl (jwt_signer w)); [done | discriminate Hok]. }
  assert (result (demonstrateNewDependencies w) = Ok tt) as Hdemo
    by (by rewrite demo_result, Hjwt).
  assert (trace (prelude w) =
          opening ++ trace (demonstrateNewDependencies w)
          ++ closing :: trace (legacy_phase w)) as Hpre
    by (by rewrite prelude_trace_eq, Hdemo).
  split; [exact Hdemo|].
  split.
  { rewrite demo_eq. destruct (jwt_signer w); [|discriminate Hjwt].
    cbn [trace fst]. unfold demo_tail. rewrite last_app. reflexivity. }
  split; [by rewrite prelude_result, Hdemo in Hok|].
  split.
  { rewrite runServer_trace, Hok, Hpre. by rewrite <- !app_assoc. }
  split; [rewrite <- Hpre; apply prelude_quiet|].
  rewrite <- Hpre.
  (* the event at the end of the startup output is the startup message *)
  destruct (decide (i = length (trace (prelude w)))) as [->|]; [|lia].
  exfalso. rewrite runServer_trace, Hok, lookup_app_r in Hi by lia.
  rewrite Nat.sub_diag, serve_phase_eq in Hi.
  destruct (serve w); cbn in Hi; injection Hi as <-; discriminate He.
Qed.

Lemma demo_completes_before_listener_witness :
  let e := EServed (mkRequest "GET" "/greet" [("name", "Ada")])
                   (mkResponse 200 "text/plain" None "Hello, Ada!") in
  trace (runServer world_closed) !! 21%nat = Some e
  /\ is_listener_event e = true
  /\ result (demonstrateNewDependencies world_closed) = Ok tt
  /\ result (legacy_phase world_closed) = Ok tt
  /\ (length (opening ++ trace (demonstrateNewDependencies world_closed)
              ++ closing :: trace (legacy_phase world_closed)) < 21)%nat.
Proof.
  intros e.
  assert (trace (runServer world_closed) !! 21%nat = Some e) as Hi
    by (vm_compute; reflexivity).
  split; [exact Hi|]. split; [reflexivity|].
  destruct (demo_completes_before_listener world_closed 21 e Hi eq_refl)
    as (Hdemo & _ & Hlegacy & _ & _ & Hlen).
  split; [exact Hdemo|]. split; [exact Hlegacy | exact Hlen].
Defined.


Lemma demo_config_defaults_and_constraints_witness :
  step_validator (mkConfig "bazel-demo-app" 5000 true) =
    ([EColor Green "✓ validator: Config validation passed" []], Ok tt)
  /\ step_validator (mkConfig "bazel-demo-app" 80 true) = ([], Ok tt)
  /\ step_validator (mkConfig "" 5000 true) = ([], Ok tt).
Proof.
  destruct demo_config_defaults_and_constraints as (_ & _ & Hstep & _).
  repeat apply conj.
  - apply (Hstep (mkConfig "bazel-demo-app" 5000 true)). cbn. split; [done | lia].
  - apply (Hstep (mkConfig "bazel-demo-app" 80 true)). cbn. lia.
  - apply (Hstep (mkConfig "" 5000 true)). cbn. intros [H _]. by apply H.
Defined.

(** * Further properties of the run *)

Definition with_jwt_signer (s : string + error) (w : World) : World :=
  mkWorld (cobra w) (dotenv w) (cache_set_now w) (cache_get_now w) (jwt_now w)
    s (proto_now w) (xml_fetch w) (uuid_new w) (snowflake_id w) (serve w).

Definition with_uuid_new (u : string + error) (w : World) : World :=
  mkWorld (cobra w) (dotenv w) (cache_set_now w) (cache_get_now w) (jwt_now w)
    (jwt_signer w) (proto_now w) (xml_fetch w) u (snowflake_id w) (serve w).

Definition with_cobra (c : Cobra) (w : World) : World :=
  mkWorld c (dotenv w) (cache_set_now w) (cache_get_now w) (jwt_now w)
    (jwt_signer w) (proto_now w) (xml_fetch w) (uuid_new w) (snowflake_id w) (serve w).

(** The signer refuses the key. *)
Definition world_sign_fails : World :=
  with_jwt_signer (inr (ErrNew "key is of invalid type")) world_closed.

(** No UUID can be generated. *)
Definition world_uuid_fails : World :=
  with_uuid_new (inr (ErrNew "uuid: no time available")) world_closed.

(** The command line is refused. *)
Definition world_bad_flag : World :=
  with_cobra (CobraFails (ErrNew "unknown flag: --port")) world_closed.

Lemma prelude_ok_iff w :
  result (prelude w) = Ok tt <->
  (exists rest, jwt_signer w = inl rest)
  /\ (exists doc a, xml_fetch w = inl doc
                    /\ xmlquery.FindOne_application_xmlns doc = Some a)
  /\ (exists u, uuid_new w = inl u).
Proof.
  rewrite prelude_result_cases, legacy_result.
  destruct (jwt_signer w) as [rest|e1]; cbn [is_inl].
  2: { split; [discriminate | intros [[? [=]] _]]. }
  destruct (xml_fetch w) as [doc|e2].
  2: { split; [discriminate | intros (_ & (? & ? & [=] & _) & _)]. }
  destruct (uuid_new w) as [u|e3].
  2: { split; [discriminate | intros (_ & _ & (? & [=]))]. }
  destruct (xmlquery.FindOne_application_xmlns doc) as [a|] eqn:Hf.
  - split; [|done]. intros _. repeat split; eauto.
  - split; [discriminate|]. intros (_ & (d & a & [= <-] & Ha) & _). congruence.
Qed.

(** X1.  The listener is called in a run exactly when the token is
    signed, the XML document is fetched and has the queried attribute, and a
    UUID is generated. *)
Theorem listener_reached_iff (w : World) :
  reaches_listener w = true <->
  (exists rest, jwt_signer w = inl rest)
  /\ (exists doc a, xml_fetch w = inl doc
                    /\ xmlquery.FindOne_application_xmlns doc = Some a)
  /\ (exists u, uuid_new w = inl u).
Proof. rewrite reaches_listener_prelude. apply prelude_ok_iff. Qed.

(** X2.  The exit status of the process, for every command line and every
    world: 0 when cobra handles the line itself; 1 when it refuses it; and
    when it runs the command, 2 if the run stops before the listener is
    called (a panic), else 1 if the listener fails and 0 if it is closed. *)
Theorem main_exit_code (w : World) :
  exit_code (result (main w)) =
  match cobra w with
  | CobraHelp => 0
  | CobraFails _ => 1
  | CobraRuns =>
      if reaches_listener w then (if listener_fails w then 1 else 0) else 2
  end.
Proof.
  unfold main. destruct (cobra w); [|reflexivity..].
  rewrite runServer_result.
  destruct (reaches_listener w) eqn:Hr.
  - apply reaches_listener_prelude in Hr. rewrite Hr, serve_phase_result.
    destruct (listener_fails w); reflexivity.
  - destruct (result (prelude w)) as [[]|ab] eqn:Hp.
    + apply reaches_listener_prelude in Hp. congruence.
    + destruct ab as [v|code]; [reflexivity|].
      exfalso. rewrite prelude_result_cases, legacy_result in Hp.
      destruct (is_inl (jwt_signer w)); [|discriminate Hp].
      destruct (xml_fetch w) as [doc|]; [|discriminate Hp].
      destruct (uuid_new w); [|discriminate Hp].
      destruct (xmlquery.FindOne_application_xmlns doc); discriminate Hp.
Qed.

(** X3.  [runServer] ends through [os.Exit] only with code 1, only after
    the listener was called, and only because the listener failed. *)
Theorem os_exit_only_from_listener (w : World) (code : Z) :
  result (runServer w) = Stop (OsExit code) ->
  code = 1 /\ reaches_listener w = true /\ listener_fails w = true.
Proof.
  intros Hres. rewrite runServer_result in Hres.
  destruct (result (prelude w)) as [[]|ab] eqn:Hp.
  - rewrite serve_phase_result in Hres.
    destruct (listener_fails w); [|discriminate Hres].
    injection Hres as <-. split; [done|]. split; [|done].
    by apply reaches_listener_prelude.
  - exfalso. injection Hres as ->.
    rewrite prelude_result_cases, legacy_result in Hp.
    destruct (is_inl (jwt_signer w)); [|discriminate Hp].
    destruct (xml_fetch w) as [doc|]; [|discriminate Hp].
    destruct (uuid_new w); [|discriminate Hp].
    destruct (xmlquery.FindOne_application_xmlns doc); discriminate Hp.
Qed.

Lemma os_exit_only_from_listener_witness :
  result (runServer world_listener_error) = Stop (OsExit 1)
  /\ reaches_listener world_listener_error = true
  /\ listener_fails world_listener_error = true.
Proof.
  assert (result (runServer world_listener_error) = Stop (OsExit 1)) as Hres
    by (vm_compute; reflexivity).
  split; [exact Hres|].
  exact (proj2 (os_exit_only_from_listener world_listener_error 1 Hres)).
Defined.

Lemma runServer_stops_in_prelude w ab :
  result (prelude w) = Stop ab ->
  result (runServer w) = Stop ab /\ trace (runServer w) = trace (prelude w).
Proof.
  intros Hp. rewrite runServer_result, runServer_trace, Hp.
  by rewrite app_nil_r.
Qed.

(** X4.  When the fetch of the XML document fails (and the token was
    signed), [runServer] panics with the error of the fetch itself, right
    after the closing line of the demonstration: nothing of lines 135-160 is
    printed. *)
Theorem fetch_failure_panics_with_error (w : World) (rest : string) (err : error) :
  jwt_signer w = inl rest ->
  xml_fetch w = inr err ->
  result (runServer w) = Stop (Panic (PanicErr err))
  /\ trace (runServer w) =
     opening ++ trace (demonstrateNewDependencies w) ++ [closing].
Proof.
  intros Hj Hx.
  assert (result (prelude w) = Stop (Panic (PanicErr err))) as Hp
    by (by rewrite prelude_result_cases, legacy_result, Hj, Hx).
  destruct (runServer_stops_in_prelude _ _ Hp) as [-> ->].
  split; [done|].
  by rewrite prelude_trace_eq, legacy_trace, demo_result, Hj, Hx.
Qed.

Lemma fetch_failure_panics_with_error_witness :
  result (runServer world_fetch_fails) =
    Stop (Panic (PanicErr (ErrNew "Get https://httpbin.org/get: dial tcp: no such host")))
  /\ last (trace (runServer world_fetch_fails)) = Some closing.
Proof.
  destruct (fetch_failure_panics_with_error world_fetch_fails _ _ eq_refl eq_refl)
    as [Hres Htr].
  split; [exact Hres|]. rewrite Htr. reflexivity.
Defined.

(** X5.  When no UUID can be generated (token signed, document fetched),
    [runServer] panics with the error of the generator after printing the
    netrc machine and the logrus line; no identifier is printed. *)
Theorem uuid_failure_panics_with_error
    (w : World) (rest : string) (doc : xmlquery.Node) (err : error) :
  jwt_signer w = inl rest ->
  xml_fetch w = inl doc ->
  uuid_new w = inr err ->
  result (runServer w) = Stop (Panic (PanicErr err))
  /\ trace (runServer w) =
     opening ++ trace (demonstrateNewDependencies w) ++
     [ closing;
       EPrintln (AMachine (mkMachine "test" "test" "test"));
       ELogrus "Hello world" ].
Proof.
  intros Hj Hx Hu.
  assert (result (prelude w) = Stop (Panic (PanicErr err))) as Hp
    by (by rewrite prelude_result_cases, legacy_result, Hj, Hx, Hu).
  destruct (runServer_stops_in_prelude _ _ Hp) as [-> ->].
  split; [done|].
  by rewrite prelude_trace_eq, legacy_trace, demo_result, Hj, Hx, Hu.
Qed.

Lemma uuid_failure_panics_with_error_witness :
  result (runServer world_uuid_fails) =
    Stop (Panic (PanicErr (ErrNew "uuid: no time available")))
  /\ last (trace (runServer world_uuid_fails)) = Some (ELogrus "Hello world").
Proof.
  destruct (uuid_failure_panics_with_error world_uuid_fails _ _ _
              eq_refl eq_refl eq_refl) as [Hres Htr].
  split; [exact Hres|]. rewrite Htr. reflexivity.
Defined.

(** X6.  When the signer fails, the token is the empty string and slicing
    its first 20 bytes panics: [runServer] stops inside the demonstration,
    whose remaining lines, the closing line and everything after it are
    never printed. *)
Theorem signing_failure_stops_in_demo (w : World) (err : error) :
  jwt_signer w = inr err ->
  result (runServer w) = Stop (Panic (PanicSliceBounds 20 0))
  /\ trace (runServer w) = opening ++ trace (demonstrateNewDependencies w)
  /\ (jwt_line ∉ trace (runServer w))
  /\ (demo_done ∉ trace (runServer w))
  /\ (closing ∉ trace (runServer w)).
Proof.
  intros Hj.
  assert (result (prelude w) = Stop (Panic (PanicSliceBounds 20 0))) as Hp
    by (by rewrite prelude_result_cases, Hj).
  destruct (runServer_stops_in_prelude _ _ Hp) as [-> ->].
  split; [done|].
  assert (trace (prelude w) = opening ++ demo_head w) as ->.
  { rewrite prelude_trace_eq, demo_result, demo_eq, Hj. cbn [is_inl trace fst].
    by rewrite app_nil_r. }
  split; [by rewrite demo_eq, Hj|].
  unfold opening, demo_head.
  destruct (demo_cache_missed w); cbn [app];
    repeat split; (rewrite !elem_of_cons, elem_of_nil; intros H;
                   repeat (destruct H as [H|H]; try discriminate H); done).
Qed.

Lemma signing_failure_stops_in_demo_witness :
  jwt_signer world_sign_fails = inr (ErrNew "key is of invalid type")
  /\ exit_code (result (runServer world_sign_fails)) = 2
  /\ (closing ∉ trace (runServer world_sign_fails)).
Proof.
  split; [reflexivity|].
  destruct (signing_failure_stops_in_demo world_sign_fails _ eq_refl)
    as (Hres & _ & _ & _ & Hc).
  split; [by rewrite Hres | exact Hc].
Defined.

(** [errors.Is] against the server-closed sentinel holds exactly for the
    sentinel under any number of wrappers. *)
Lemma errors_Is_closed_iff err :
  errors_Is err ErrServerClosed = true <->
  exists msgs, err = foldr ErrWrap ErrServerClosed msgs.
Proof.
  induction err as [|msg|msg inner IH]; cbn.
  - split; [|done]. intros _. by exists [].
  - split; [discriminate|]. intros [[|m msgs] H]; discriminate H.
  - rewrite IH. split.
    + intros [msgs ->]. by exists (msg :: msgs).
    + intros [[|m msgs] H]; [discriminate H|].
      injection H as _ ->. by exists msgs.
Qed.

(** X7.  Once the listener is reached, the process exits with code 0
    exactly when the error the listener ends with is the server-closed
    sentinel, bare or wrapped any number of times; a failed bind never
    counts as a close. *)
Theorem graceful_exit_iff_wrapped_close (w : World) :
  cobra w = CobraRuns ->
  reaches_listener w = true ->
  (exit_code (result (main w)) = 0 <->
   exists reqs msgs, serve w = Serves reqs (foldr ErrWrap ErrServerClosed msgs)).
Proof.
  intros Hc Hr. unfold main. rewrite Hc.
  apply reaches_listener_prelude in Hr.
  rewrite runServer_result, Hr, serve_phase_result. unfold listener_fails.
  destruct (serve w) as [cause|reqs err]; cbn [exit_code].
  - split; [discriminate | intros (? & ? & [=])].
  - destruct (errors_Is err ErrServerClosed) eqn:He; cbn [negb exit_code].
    + apply errors_Is_closed_iff in He as [msgs ->]. split; eauto.
    + split; [discriminate|]. intros (r & msgs & [= _ ->]).
      assert (errors_Is (foldr ErrWrap ErrServerClosed msgs) ErrServerClosed = true)
        by (apply errors_Is_closed_iff; eauto).
      congruence.
Qed.

Lemma graceful_exit_iff_wrapped_close_witness :
  let w := with_serve
             (Serves sample_requests
                (ErrWrap "serve" (ErrWrap "accept" ErrServerClosed)))
             world_closed in
  cobra w = CobraRuns /\ reaches_listener w = true
  /\ exit_code (result (main w)) = 0.
Proof.
  intros w.
  assert (reaches_listener w = true) as Hr by (vm_compute; reflexivity).
  split; [reflexivity|]. split; [exact Hr|].
  apply (graceful_exit_iff_wrapped_close w eq_refl Hr).
  by exists sample_requests, ["serve"; "accept"].
Defined.

(** * Further properties of the library calls *)

(** X8.  What [validate.Struct] reports for a configuration, field by
    field and in the order of the fields: an empty name fails [required];
    a port of 0 fails [required], a port below 1000 fails [min], a port
    above 65535 fails [max]; and nothing else is reported. *)
Theorem validator_report (c : Config) :
  validator.Struct c =
  (if decide (AppName c = "") then [("AppName", validator.required)] else [])
  ++ (if decide (Port c = 0) then [("Port", validator.required)]
      else if decide (Port c < 1000) then [("Port", validator.min 1000)]
      else if decide (65535 < Port c) then [("Port", validator.max 65535)]
      else []).
Proof.
  unfold validator.Struct, validator.Config_fields, validator.validate_fields.
  cbn [omap list_omap validator.first_failure validator.check].
  destruct (String.eqb_spec (AppName c) "") as [Hn|Hn];
    destruct (decide (AppName c = "")); try done; cbn [negb app];
    (destruct (Z.eqb_spec (Port c) 0); destruct (decide (Port c = 0));
       try done; cbn [negb];
     destruct (Z.leb_spec 1000 (Port c)); destruct (decide (Port c < 1000));
       try lia; try done;
     destruct (Z.leb_spec (Port c) 65535); destruct (decide (65535 < Port c));
       try lia; done).
Qed.

(** X9.  The router answers with status 200 exactly the GET requests for
    [/greet] and [/greet-many]; every answer has one of the four statuses
    200, 301, 404 and 405; and the status never depends on the query. *)
Theorem router_status (req : Request) :
  (Status (mux.ServeHTTP router req) = 200 <->
   Method req = "GET" /\ (Path req = "/greet" \/ Path req = "/greet-many"))
  /\ Status (mux.ServeHTTP router req) ∈ [200; 301; 404; 405]
  /\ (forall q, Status (mux.ServeHTTP router (mkRequest (Method req) (Path req) q))
                = Status (mux.ServeHTTP router req)).
Proof.
  assert (forall r, Status (dispatch r) =
            if negb (String.eqb (mux.cleanPath (Path r)) (Path r)) then 301
            else if String.eqb (Path r) "/greet" || String.eqb (Path r) "/greet-many"
                 then (if String.eqb (Method r) "GET" then 200 else 405)
                 else 404) as Hst.
  { intros r. unfold dispatch.
    destruct (negb _); [reflexivity|].
    destruct (String.eqb (Path r) "/greet"); cbn [orb];
      [destruct (String.eqb (Method r) "GET"); reflexivity|].
    destruct (String.eqb (Path r) "/greet-many"); [|reflexivity].
    destruct (String.eqb (Method r) "GET"); reflexivity. }
  split; [|split].
  - rewrite router_dispatch, Hst.
    destruct (String.eqb_spec (mux.cleanPath (Path req)) (Path req)) as [Hc|Hc];
      cbn [negb].
    2: { split; [discriminate|]. intros [_ [Hp|Hp]]; rewrite Hp in Hc; by destruct Hc. }
    destruct (String.eqb_spec (Path req) "/greet") as [Hp|Hp]; cbn [orb].
    + destruct (String.eqb_spec (Method req) "GET"); split; intuition discriminate.
    + destruct (String.eqb_spec (Path req) "/greet-many") as [Hp'|Hp'].
      * destruct (String.eqb_spec (Method req) "GET"); split; intuition discriminate.
      * split; [discriminate|]. intuition.
  - rewrite router_dispatch, Hst.
    destruct (negb _); [set_solver|].
    destruct (_ || _); [|set_solver].
    destruct (String.eqb (Method req) "GET"); set_solver.
  - intros q. rewrite !router_dispatch, !Hst. reflexivity.
Qed.

(** X10.  Reading a key right after writing it: the value comes back when
    the entry never expires, or when the clock at the read is not past the
    expiration time; it is missed when the expiration time is positive and
    past.  Writing a key leaves every other key as it was, and a second
    write of the same key replaces the first. *)
Theorem cache_get_after_set (c : cache.Cache) (k x : string) (d now t : Z) :
  let life := if d =? cache.DefaultExpiration then cache.defaultExpiration c else d in
  (life <= 0 -> cache.Get k t (cache.Set_ k x d now c) = Some x)
  /\ (0 < life -> t <= now + life ->
      cache.Get k t (cache.Set_ k x d now c) = Some x)
  /\ (0 < life -> 0 < now + life < t ->
      cache.Get k t (cache.Set_ k x d now c) = None)
  /\ (forall k', k' <> k ->
      cache.Get k' t (cache.Set_ k x d now c) = cache.Get k' t c)
  /\ (forall x' d' now',
      cache.Get k t (cache.Set_ k x d now (cache.Set_ k x' d' now' c))
      = cache.Get k t (cache.Set_ k x d now c)).
Proof.
  intros life.
  assert (cache.Get k t (cache.Set_ k x d now c) =
          if (0 <? (if 0 <? life then now + life else 0))
             && ((if 0 <? life then now + life else 0) <? t)
          then None else Some x) as Hget.
  { unfold cache.Get, cache.Set_. cbn [cache.items cache.defaultExpiration].
    rewrite lookup_insert_eq. reflexivity. }
  repeat apply conj.
  - intros Hl. rewrite Hget.
    destruct (Z.ltb_spec 0 life); [lia | reflexivity].
  - intros Hl Ht. rewrite Hget.
    destruct (Z.ltb_spec 0 life); [|lia].
    destruct (Z.ltb_spec (now + life) t); [lia|]. by rewrite andb_false_r.
  - intros Hl Ht. rewrite Hget.
    destruct (Z.ltb_spec 0 life); [|lia].
    destruct (Z.ltb_spec 0 (now + life)); [|lia].
    destruct (Z.ltb_spec (now + life) t); [reflexivity | lia].
  - intros k' Hk. unfold cache.Get, cache.Set_. cbn [cache.items].
    by rewrite lookup_insert_ne.
  - intros x' d' now'. unfold cache.Get, cache.Set_.
    cbn [cache.items cache.defaultExpiration].
    by rewrite !lookup_insert_eq.
Qed.

Lemma cache_get_after_set_witness :
  let c := cache.New (5 * cache.Minute) (10 * cache.Minute) in
  cache.Get "k" (4 * cache.Minute) (cache.Set_ "k" "v" cache.DefaultExpiration 0 c) = Some "v"
  /\ cache.Get "k" (6 * cache.Minute) (cache.Set_ "k" "v" cache.DefaultExpiration 0 c) = None
  /\ cache.Get "k" (6 * cache.Minute) (cache.Set_ "k" "v" cache.NoExpiration 0 c) = Some "v"
  /\ cache.Get "other" 0 (cache.Set_ "k" "v" cache.DefaultExpiration 0 c) = None.
Proof.
  intros c. repeat apply conj.
  - destruct (cache_get_after_set c "k" "v" cache.DefaultExpiration 0 (4 * cache.Minute))
      as (_ & Hhit & _).
    apply Hhit; vm_compute; done.
  - destruct (cache_get_after_set c "k" "v" cache.DefaultExpiration 0 (6 * cache.Minute))
      as (_ & _ & Hmiss & _).
    apply Hmiss; vm_compute; repeat split; done.
  - destruct (cache_get_after_set c "k" "v" cache.NoExpiration 0 (6 * cache.Minute))
      as (Hnever & _).
    apply Hnever. vm_compute. discriminate.
  - destruct (cache_get_after_set c "k" "v" cache.DefaultExpiration 0 0)
      as (_ & _ & _ & Hother & _).
    rewrite Hother by done. reflexivity.
Defined.

(** A key the model of the store is exact for: ASCII only, so that
    [strings.ToLower] folds the letters A-Z and nothing else, and without the
    key delimiter [.], so that the key names one entry and not a path. *)
Fixpoint plain_key (key : string) : bool :=
  match key with
  | EmptyString => true
  | String a key' =>
      (nat_of_ascii a <? 128)%nat && negb (Ascii.eqb a ".") && plain_key key'
  end.

(** X11.  For keys that are ASCII and have no dot: a default set under a
    key is what [Get] returns for that key in any spelling of upper and
    lower case, unless a value was [Set] for it, which wins; setting a
    default leaves the keys that differ from it after lower-casing as they
    were. *)
Theorem viper_get_after_set_default (v : viper.Viper) (key key' : string) (val : viper.Val) :
  plain_key key = true ->
  plain_key key' = true ->
  (viper.ToLower key' = viper.ToLower key ->
   viper.Get key' (viper.SetDefault key val v) =
   match viper.override v !! viper.ToLower key with
   | Some x => Some x
   | None => Some val
   end)
  /\ (viper.ToLower key' = viper.ToLower key ->
      forall x, viper.Get key' (viper.SetDefault key val (viper.Set_ key x v)) = Some x)
  /\ (viper.ToLower key' <> viper.ToLower key ->
      viper.Get key' (viper.SetDefault key val v) = viper.Get key' v).
Proof.
  intros _ _.
  unfold viper.Get, viper.SetDefault, viper.Set_.
  cbn [viper.override viper.defaults].
  repeat apply conj.
  - intros ->. by rewrite lookup_insert_eq.
  - intros -> x. by rewrite lookup_insert_eq.
  - intros Hne. by rewrite lookup_insert_ne.
Qed.

Lemma viper_get_after_set_default_witness :
  plain_key "port" = true /\ plain_key "Port" = true
  /\ viper.GetInt "Port" (viper.SetDefault "port" (viper.VInt 5000) viper.New) = 5000
  /\ viper.Get "PORT" (viper.SetDefault "port" (viper.VInt 5000)
                         (viper.Set_ "Port" (viper.VInt 8080) viper.New))
     = Some (viper.VInt 8080)
  /\ viper.Get "debug" (viper.SetDefault "port" (viper.VInt 5000) viper.New) = None.
Proof.
  split; [reflexivity|]. split; [reflexivity|].
  repeat apply conj.
  - unfold viper.GetInt.
    rewrite (proj1 (viper_get_after_set_default viper.New "port" "Port" (viper.VInt 5000)
                      eq_refl eq_refl))
      by reflexivity.
    reflexivity.
  - apply (proj1 (proj2 (viper_get_after_set_default viper.New "port" "PORT" (viper.VInt 5000)
                           eq_refl eq_refl))).
    reflexivity.
  - rewrite (proj2 (proj2 (viper_get_after_set_default viper.New "port" "debug" (viper.VInt 5000)
                             eq_refl eq_refl)))
      by discriminate.
    reflexivity.
Defined.

(** ** The query over the document tree *)

(** The nodes below [n], in document order. *)
Fixpoint descendants (n : xmlquery.Node) : list xmlquery.Node :=
  match n with
  | xmlquery.mkNode _ _ _ _ children =>
      (fix go (cs : list xmlquery.Node) : list xmlquery.Node :=
         match cs with
         | [] => []
         | c :: cs' => c :: descendants c ++ go cs'
         end) children
  end.

Section NodeInduction.
Variable P : xmlquery.Node -> Prop.
Hypothesis step : forall ty data prefix attr children,
  Forall P children -> P (xmlquery.mkNode ty data prefix attr children).

Fixpoint Node_children_ind (n : xmlquery.Node) : P n :=
  match n with
  | xmlquery.mkNode ty data prefix attr children =>
      step ty data prefix attr children
        ((fix go (cs : list xmlquery.Node) : Forall P cs :=
            match cs with
            | [] => @List.Forall_nil _ P
            | c :: cs' => @List.Forall_cons _ P c cs' (Node_children_ind c) (go cs')
            end) children)
  end.
End NodeInduction.

Lemma omap_cons_list {A B} (f : A -> option B) (x : A) (l : list A) :
  omap f (x :: l) = match f x with Some y => y :: omap f l | None => omap f l end.
Proof. reflexivity. Qed.

Lemma find_below_first (n : xmlquery.Node) :
  xmlquery.find_below n = head (omap xmlquery.application_xmlns (descendants n)).
Proof.
  induction n as [ty data prefix attr children IH] using Node_children_ind.
  cbn [xmlquery.find_below descendants].
  induction IH as [|c cs Hc _ IHcs]; [reflexivity|].
  rewrite omap_cons_list.
  destruct (xmlquery.application_xmlns c) as [a|]; [reflexivity|].
  rewrite omap_app, Hc.
  destruct (omap xmlquery.application_xmlns (descendants c)) as [|a l];
    [exact IHcs | reflexivity].
Qed.

(** An attribute [xmlns] without a prefix. *)
Definition is_xmlns (a : xmlquery.Attr) : Prop :=
  xmlquery.Space a = "" /\ xmlquery.Local a = "xmlns".

(** An [application] element without a prefix that carries such an
    attribute. *)
Definition application_with_xmlns (n : xmlquery.Node) : Prop :=
  exists attr children a,
    n = xmlquery.mkNode xmlquery.ElementNode "application" "" attr children
    /\ a ∈ attr /\ is_xmlns a.

(** [a] is the first such attribute of the [application] element [n]. *)
Definition first_xmlns_of (n : xmlquery.Node) (a : xmlquery.Attr) : Prop :=
  exists attr children before after,
    n = xmlquery.mkNode xmlquery.ElementNode "application" "" attr children
    /\ attr = before ++ a :: after
    /\ Forall (fun b => ~ is_xmlns b) before
    /\ is_xmlns a.

Lemma find_first {A} (p : A -> bool) (l : list A) (a : A) :
  List.find p l = Some a <->
  exists l1 l2, l = l1 ++ a :: l2 /\ Forall (fun x => p x = false) l1 /\ p a = true.
Proof.
  induction l as [|x l IH]; cbn [List.find].
  - split; [discriminate|]. intros ([|? ?] & ? & [=] & _).
  - destruct (p x) eqn:Hx.
    + split.
      * intros [= ->]. exists [], l. by repeat split.
      * intros ([|y l1] & l2 & Hl & Hall & Ha).
        -- by injection Hl as -> _.
        -- injection Hl as -> _. inversion Hall; congruence.
    + rewrite IH. split.
      * intros (l1 & l2 & -> & Hall & Ha). exists (x :: l1), l2.
        repeat split; [|done]. by constructor.
      * intros ([|y l1] & l2 & Hl & Hall & Ha).
        -- injection Hl as -> _. congruence.
        -- injection Hl as -> ->. exists l1, l2.
           repeat split; [|done]. by inversion Hall.
Qed.

Lemma find_nothing {A} (p : A -> bool) (l : list A) :
  List.find p l = None <-> Forall (fun x => p x = false) l.
Proof.
  induction l as [|x l IH]; cbn [List.find]; [by split; [constructor|]|].
  destruct (p x) eqn:Hx.
  - split; [discriminate|]. inversion 1; congruence.
  - rewrite IH. split; [by constructor | by inversion 1].
Qed.

Definition xmlns_test (a : xmlquery.Attr) : bool :=
  String.eqb (xmlquery.Space a) "" && String.eqb (xmlquery.Local a) "xmlns".

Lemma xmlns_test_true a : xmlns_test a = true <-> is_xmlns a.
Proof.
  unfold xmlns_test, is_xmlns. by rewrite andb_true_iff, !String.eqb_eq.
Qed.

Lemma xmlns_test_false a : xmlns_test a = false <-> ~ is_xmlns a.
Proof. rewrite <- xmlns_test_true. by destruct (xmlns_test a). Qed.

Lemma application_xmlns_attr attr children :
  xmlquery.application_xmlns
    (xmlquery.mkNode xmlquery.ElementNode "application" "" attr children)
  = List.find xmlns_test attr.
Proof. reflexivity. Qed.

Lemma application_xmlns_some n a :
  xmlquery.application_xmlns n = Some a <-> first_xmlns_of n a.
Proof.
  unfold first_xmlns_of. split.
  - intros Hn.
    destruct n as [ty data prefix attr children].
    assert (ty = xmlquery.ElementNode /\ data = "application" /\ prefix = "")
      as (-> & -> & ->).
    { unfold xmlquery.application_xmlns in Hn.
      destruct ty; try discriminate Hn. cbn [xmlquery.is_element andb] in Hn.
      destruct (String.eqb_spec data "application"); [|discriminate Hn].
      destruct (String.eqb_spec prefix ""); [|discriminate Hn]. done. }
    rewrite application_xmlns_attr in Hn.
    apply find_first in Hn as (l1 & l2 & -> & Hall & Ha).
    exists (l1 ++ a :: l2), children, l1, l2. repeat split.
    + eapply Forall_impl; [exact Hall|]. intros b. apply xmlns_test_false.
    + by apply xmlns_test_true, proj1 in Ha.
    + by apply xmlns_test_true, proj2 in Ha.
  - intros (attr & children & l1 & l2 & -> & -> & Hall & Ha).
    rewrite application_xmlns_attr. apply find_first. exists l1, l2.
    repeat split.
    + eapply Forall_impl; [exact Hall|]. intros b. apply xmlns_test_false.
    + by apply xmlns_test_true.
Qed.

Lemma application_xmlns_none n :
  xmlquery.application_xmlns n = None <-> ~ application_with_xmlns n.
Proof.
  unfold application_with_xmlns. split.
  - intros Hn (attr & children & a & -> & Hin & Ha).
    rewrite application_xmlns_attr in Hn.
    apply find_nothing in Hn. rewrite Forall_forall in Hn.
    specialize (Hn a Hin). by apply xmlns_test_false in Hn.
  - intros Hno.
    destruct (xmlquery.application_xmlns n) as [a|] eqn:Hn; [|reflexivity].
    exfalso. apply Hno.
    apply application_xmlns_some in Hn
      as (attr & children & l1 & l2 & -> & -> & _ & Ha).
    exists (l1 ++ a :: l2), children, a. repeat split; try apply Ha.
    apply elem_of_app. right. left.
Qed.

Lemma head_omap_some {A B} (f : A -> option B) (l : list A) (b : B) :
  head (omap f l) = Some b <->
  exists l1 x l2, l = l1 ++ x :: l2 /\ Forall (fun y => f y = None) l1 /\ f x = Some b.
Proof.
  induction l as [|y l IH].
  - split; [discriminate|]. intros ([|? ?] & ? & ? & [=] & _).
  - rewrite omap_cons_list. destruct (f y) as [c|] eqn:Hy.
    + cbn [head]. split.
      * intros [= ->]. exists [], y, l. by repeat split.
      * intros ([|z l1] & x & l2 & Hl & Hall & Hx).
        -- injection Hl as -> _. congruence.
        -- injection Hl as -> _. inversion Hall; congruence.
    + rewrite IH. split.
      * intros (l1 & x & l2 & -> & Hall & Hx). exists (y :: l1), x, l2.
        repeat split; [|done]. by constructor.
      * intros ([|z l1] & x & l2 & Hl & Hall & Hx).
        -- injection Hl as -> _. congruence.
        -- injection Hl as -> ->. exists l1, x, l2.
           repeat split; [|done]. by inversion Hall.
Qed.

Lemma head_omap_none {A B} (f : A -> option B) (l : list A) :
  head (omap f l) = None <-> Forall (fun y => f y = None) l.
Proof.
  induction l as [|y l IH]; [by split; [constructor|]|].
  rewrite omap_cons_list. destruct (f y) eqn:Hy.
  - split; [discriminate|]. inversion 1; congruence.
  - rewrite IH. split; [by constructor | by inversion 1].
Qed.

(** X12.  The query [//application/@xmlns] returns the first match in
    document order.  It returns nil exactly when no node below the top is
    an unprefixed element [application] with an unprefixed attribute
    [xmlns]; it returns [a] exactly when [a] is the first such attribute of
    the first such element met in pre-order below the top. *)
Theorem FindOne_first_in_document_order (top : xmlquery.Node) :
  (xmlquery.FindOne_application_xmlns top = None <->
   Forall (fun n => ~ application_with_xmlns n) (descendants top))
  /\ (forall a,
        xmlquery.FindOne_application_xmlns top = Some a <->
        exists before n after,
          descendants top = before ++ n :: after
          /\ Forall (fun m => ~ application_with_xmlns m) before
          /\ first_xmlns_of n a).
Proof.
  unfold xmlquery.FindOne_application_xmlns. rewrite find_below_first.
  split.
  - rewrite head_omap_none. split; intros H; (eapply Forall_impl; [exact H|]);
      intros n; apply application_xmlns_none.
  - intros a. rewrite head_omap_some. split.
    + intros (l1 & n & l2 & Hd & Hall & Hn). exists l1, n, l2.
      split; [exact Hd|]. split; [|by apply application_xmlns_some].
      eapply Forall_impl; [exact Hall|]. intros m. apply application_xmlns_none.
    + intros (l1 & n & l2 & Hd & Hall & Hn). exists l1, n, l2.
      split; [exact Hd|]. split; [|by apply application_xmlns_some].
      eapply Forall_impl; [exact Hall|]. intros m. apply application_xmlns_none.
Qed.

Lemma FindOne_first_in_document_order_witness :
  descendants doc_wadl =
    [ xmlquery.mkNode xmlquery.DeclarationNode "xml" "" [] [];
      xmlquery.mkNode xmlquery.ElementNode "application" ""
        [xmlquery.mkAttr "" "xmlns" "http://wadl.dev.java.net/2009/02"]
        [xmlquery.mkNode xmlquery.ElementNode "resources" "" [] []];
      xmlquery.mkNode xmlquery.ElementNode "resources" "" [] [] ]
  /\ xmlquery.FindOne_application_xmlns doc_wadl
     = Some (xmlquery.mkAttr "" "xmlns" "http://wadl.dev.java.net/2009/02")
  /\ xmlquery.FindOne_application_xmlns doc_plain = None.
Proof.
  split; [reflexivity|]. split.
  - apply (proj2 (FindOne_first_in_document_order doc_wadl)).
    exists [xmlquery.mkNode xmlquery.DeclarationNode "xml" "" [] []],
           (xmlquery.mkNode xmlquery.ElementNode "application" ""
              [xmlquery.mkAttr "" "xmlns" "http://wadl.dev.java.net/2009/02"]
              [xmlquery.mkNode xmlquery.ElementNode "resources" "" [] []]),
           [xmlquery.mkNode xmlquery.ElementNode "resources" "" [] []].
    split; [reflexivity|]. split.
    + constructor; [|constructor].
      intros (attr & children & a & [=] & _).
    + exists [xmlquery.mkAttr "" "xmlns" "http://wadl.dev.java.net/2009/02"],
             [xmlquery.mkNode xmlquery.ElementNode "resources" "" [] []], [], [].
      repeat split. constructor.
  - apply (proj1 (FindOne_first_in_document_order doc_plain)).
    repeat constructor; intros (attr & children & a & [=] & _).
Defined.

(** ** Canonical paths *)

Fixpoint no_slash (s : string) : bool :=
  match s with
  | EmptyString => true
  | String a s' => negb (Ascii.eqb a "/") && no_slash s'
  end.

(** An element [path.Clean] keeps: not empty, not [.], not [..]. *)
Definition kept_ok (e : string) : bool :=
  no_slash e && negb (String.eqb e "") && negb (String.eqb e ".")
  && negb (String.eqb e "..").

Lemma split_slash_no_slash s :
  Forall (fun e => no_slash e = true) (mux.split_slash s).
Proof.
  induction s as [|a s IH]; cbn [mux.split_slash].
  - by repeat constructor.
  - destruct (Ascii.eqb a "/") eqn:Ha; [by constructor|].
    destruct (mux.split_slash s) as [|h t].
    + repeat constructor. cbn. by rewrite Ha.
    + inversion IH as [|? ? Hh Ht]; subst. constructor; [|done].
      cbn. by rewrite Ha, Hh.
Qed.

Lemma split_slash_elem e :
  no_slash e = true -> mux.split_slash e = [e].
Proof.
  induction e as [|a e IH]; [done|]. cbn [no_slash mux.split_slash].
  intros [Ha He]%andb_true_iff. apply negb_true_iff in Ha. rewrite Ha.
  by rewrite (IH He).
Qed.

Lemma append_cons (a : ascii) (s t : string) : String a s +:+ t = String a (s +:+ t).
Proof. reflexivity. Qed.

Lemma append_empty_l (t : string) : "" +:+ t = t.
Proof. reflexivity. Qed.

Lemma split_slash_elem_slash e s :
  no_slash e = true ->
  mux.split_slash (e +:+ String "/" s) = e :: mux.split_slash s.
Proof.
  induction e as [|a e IH]; [done|].
  rewrite append_cons. cbn [no_slash mux.split_slash].
  intros [Ha He]%andb_true_iff. apply negb_true_iff in Ha. rewrite Ha.
  by rewrite (IH He).
Qed.

Lemma split_join es :
  Forall (fun e => no_slash e = true) es -> es <> [] ->
  mux.split_slash (mux.join_slash es) = es.
Proof.
  induction 1 as [|e es He Hes IH]; [done|]. intros _.
  destruct es as [|e' es'].
  - by apply split_slash_elem.
  - change (mux.join_slash (e :: e' :: es'))
      with (e +:+ String "/" (mux.join_slash (e' :: es'))).
    rewrite split_slash_elem_slash by done. by rewrite IH.
Qed.

Lemma append_assoc (a b c : string) : (a +:+ b) +:+ c = a +:+ (b +:+ c).
Proof. induction a as [|x a IH]; [done|]. by rewrite !append_cons, IH. Qed.

Lemma split_join_slash es :
  Forall (fun e => no_slash e = true) es -> es <> [] ->
  mux.split_slash (mux.join_slash es +:+ "/") = es ++ [""].
Proof.
  induction 1 as [|e es He Hes IH]; [done|]. intros _.
  destruct es as [|e' es'].
  - cbn [mux.join_slash]. by rewrite split_slash_elem_slash.
  - change (mux.join_slash (e :: e' :: es'))
      with (e +:+ String "/" (mux.join_slash (e' :: es'))).
    rewrite append_assoc, append_cons.
    rewrite split_slash_elem_slash by done. by rewrite IH.
Qed.

Lemma kept_ok_no_slash e : kept_ok e = true -> no_slash e = true.
Proof. unfold kept_ok. rewrite !andb_true_iff. tauto. Qed.

Lemma clean_step_kept acc e :
  kept_ok e = true -> mux.clean_step acc e = acc ++ [e].
Proof.
  unfold kept_ok, mux.clean_step. rewrite !andb_true_iff, !negb_true_iff.
  intros [[[_ ->] ->] ->]. reflexivity.
Qed.

Lemma foldl_clean_kept es acc :
  Forall (fun e => kept_ok e = true) es ->
  foldl mux.clean_step acc es = acc ++ es.
Proof.
  intros H. revert acc. induction H as [|e es He _ IH]; intros acc.
  - by rewrite app_nil_r.
  - cbn [foldl]. rewrite IH, clean_step_kept by done. by rewrite <- app_assoc.
Qed.

Lemma Forall_removelast {A} (P : A -> Prop) (l : list A) :
  Forall P l -> Forall P (removelast l).
Proof.
  induction 1 as [|x l Hx Hl IH]; [constructor|].
  cbn. destruct l; [constructor | by constructor].
Qed.

Lemma clean_step_ok acc e :
  Forall (fun e => kept_ok e = true) acc -> no_slash e = true ->
  Forall (fun e => kept_ok e = true) (mux.clean_step acc e).
Proof.
  intros Hacc He. unfold mux.clean_step.
  destruct (String.eqb e "") eqn:E1; [done|].
  destruct (String.eqb e ".") eqn:E2; [done|]. cbn [orb].
  destruct (String.eqb e "..") eqn:E3; [by apply Forall_removelast|].
  apply Forall_app. split; [done|]. constructor; [|constructor].
  unfold kept_ok. by rewrite He, E1, E2, E3.
Qed.

Lemma foldl_clean_ok es acc :
  Forall (fun e => kept_ok e = true) acc ->
  Forall (fun e => no_slash e = true) es ->
  Forall (fun e => kept_ok e = true) (foldl mux.clean_step acc es).
Proof.
  intros Hacc Hes. revert acc Hacc.
  induction Hes as [|e es He _ IH]; intros acc Hacc; [done|].
  cbn [foldl]. apply IH. by apply clean_step_ok.
Qed.

Lemma foldl_clean_empty_first l :
  foldl mux.clean_step [] ("" :: l) = foldl mux.clean_step [] l.
Proof. reflexivity. Qed.

(** The elements [path.Clean] keeps of a path. *)
Definition kept_elements (p : string) : list string :=
  foldl mux.clean_step [] (mux.split_slash p).

Lemma kept_elements_ok p : Forall (fun e => kept_ok e = true) (kept_elements p).
Proof. apply foldl_clean_ok; [constructor | apply split_slash_no_slash]. Qed.

Lemma path_Clean_kept p : mux.path_Clean p = "/" +:+ mux.join_slash (kept_elements p).
Proof. reflexivity. Qed.

Lemma kept_elements_canonical st :
  Forall (fun e => kept_ok e = true) st ->
  kept_elements ("/" +:+ mux.join_slash st) = st.
Proof.
  intros Hst. unfold kept_elements.
  rewrite append_cons, append_empty_l. cbn [mux.split_slash Ascii.eqb Bool.eqb].
  destruct st as [|e st'].
  - reflexivity.
  - rewrite split_join; [|by eapply Forall_impl; [exact Hst | apply kept_ok_no_slash]|done].
    by rewrite foldl_clean_empty_first, foldl_clean_kept.
Qed.

Lemma kept_elements_canonical_slash st :
  Forall (fun e => kept_ok e = true) st -> st <> [] ->
  kept_elements (("/" +:+ mux.join_slash st) +:+ "/") = st.
Proof.
  intros Hst Hne. unfold kept_elements.
  rewrite !append_cons, append_empty_l. cbn [mux.split_slash Ascii.eqb Bool.eqb].
  rewrite split_join_slash; [|by eapply Forall_impl; [exact Hst | apply kept_ok_no_slash]|done].
  rewrite foldl_clean_empty_first, foldl_app, (foldl_clean_kept st) by done.
  reflexivity.
Qed.

Lemma ends_with_slash_append s :
  mux.ends_with_slash (s +:+ "/") = true.
Proof.
  induction s as [|a s IH]; [reflexivity|].
  rewrite append_cons. cbn [mux.ends_with_slash].
  destruct (s +:+ "/") eqn:E; [by destruct s | exact IH].
Qed.

Lemma ends_with_slash_append_r s t :
  t <> "" -> mux.ends_with_slash (s +:+ t) = mux.ends_with_slash t.
Proof.
  intros Ht. induction s as [|a s IH]; [reflexivity|].
  rewrite append_cons. cbn [mux.ends_with_slash].
  destruct (s +:+ t) eqn:E; [by destruct s, t | exact IH].
Qed.

Lemma no_slash_not_ends e : no_slash e = true -> mux.ends_with_slash e = false.
Proof.
  induction e as [|a e IH]; [reflexivity|]. cbn [no_slash mux.ends_with_slash].
  intros [Ha He]%andb_true_iff. apply negb_true_iff in Ha.
  destruct e; [exact Ha | by apply IH].
Qed.

Lemma kept_ok_nonempty e : kept_ok e = true -> e <> "".
Proof.
  unfold kept_ok. rewrite !andb_true_iff, !negb_true_iff.
  intros [[[_ H] _] _] ->. discriminate H.
Qed.

Lemma join_slash_nonempty st :
  Forall (fun e => kept_ok e = true) st -> st <> [] -> mux.join_slash st <> "".
Proof.
  intros Hst Hne. destruct Hst as [|e st He Hst]; [done|].
  apply kept_ok_nonempty in He. destruct e; [done|].
  destruct st; cbn [mux.join_slash]; [done|]. by rewrite append_cons.
Qed.

Lemma join_slash_not_ends st :
  Forall (fun e => kept_ok e = true) st -> mux.ends_with_slash (mux.join_slash st) = false.
Proof.
  induction 1 as [|e st He Hst IH]; [reflexivity|].
  destruct st as [|e' st'].
  - by apply no_slash_not_ends, kept_ok_no_slash.
  - change (mux.join_slash (e :: e' :: st'))
      with (e +:+ String "/" (mux.join_slash (e' :: st'))).
    rewrite ends_with_slash_append_r by done.
    change (String "/" (mux.join_slash (e' :: st')))
      with ("/" +:+ mux.join_slash (e' :: st')).
    rewrite ends_with_slash_append_r; [exact IH|].
    by apply join_slash_nonempty.
Qed.

(** A canonical path: the kept elements joined after the leading slash,
    with or without a slash at the end. *)
Lemma cleanPath_canonical st :
  Forall (fun e => kept_ok e = true) st ->
  mux.cleanPath ("/" +:+ mux.join_slash st) = "/" +:+ mux.join_slash st.
Proof.
  intros Hst. unfold mux.cleanPath.
  rewrite append_cons, append_empty_l.
  cbn [String.eqb mux.starts_with_slash Ascii.eqb Bool.eqb].
  change (String "/" (mux.join_slash st)) with ("/" +:+ mux.join_slash st).
  rewrite path_Clean_kept, kept_elements_canonical by done.
  destruct st as [|e st'] eqn:E; [reflexivity|]. rewrite <- E in *.
  rewrite ends_with_slash_append_r by (apply join_slash_nonempty; [done|by subst]).
  by rewrite join_slash_not_ends.
Qed.

Lemma cleanPath_canonical_slash st :
  Forall (fun e => kept_ok e = true) st -> st <> [] ->
  mux.cleanPath (("/" +:+ mux.join_slash st) +:+ "/")
  = ("/" +:+ mux.join_slash st) +:+ "/".
Proof.
  intros Hst Hne.
  set (r := ("/" +:+ mux.join_slash st) +:+ "/").
  assert (r = String "/" (mux.join_slash st +:+ "/")) as Hr by reflexivity.
  unfold mux.cleanPath.
  assert (String.eqb r "" = false) as -> by (by rewrite Hr).
  assert (mux.starts_with_slash r = true) as -> by (by rewrite Hr).
  rewrite path_Clean_kept.
  assert (kept_elements r = st) as -> by (by apply kept_elements_canonical_slash).
  assert (mux.ends_with_slash r = true) as -> by apply ends_with_slash_append.
  assert (String.eqb ("/" +:+ mux.join_slash st) "/" = false) as ->.
  { apply String.eqb_neq. rewrite append_cons, append_empty_l. intros [= H].
    by apply (join_slash_nonempty st). }
  reflexivity.
Qed.

Lemma cleanPath_shape p :
  exists st,
    Forall (fun e => kept_ok e = true) st
    /\ (mux.cleanPath p = "/" +:+ mux.join_slash st
        \/ (st <> [] /\ mux.cleanPath p = ("/" +:+ mux.join_slash st) +:+ "/")).
Proof.
  unfold mux.cleanPath.
  destruct (String.eqb p "").
  { exists []. split; [constructor | by left]. }
  set (p0 := if mux.starts_with_slash p then p else "/" +:+ p).
  rewrite path_Clean_kept.
  exists (kept_elements p0). split; [apply kept_elements_ok|].
  destruct (mux.ends_with_slash p0
            && negb (String.eqb ("/" +:+ mux.join_slash (kept_elements p0)) "/")) eqn:E.
  - right. split; [|reflexivity].
    intros Hnil. rewrite Hnil in E. apply andb_true_iff in E as [_ E]. discriminate E.
  - by left.
Qed.

Lemma cleanPath_idempotent p : mux.cleanPath (mux.cleanPath p) = mux.cleanPath p.
Proof.
  destruct (cleanPath_shape p) as (st & Hst & [-> | [Hne ->]]).
  - by apply cleanPath_canonical.
  - by apply cleanPath_canonical_slash.
Qed.

Lemma split_slash_leading s :
  mux.split_slash ("/" +:+ s) = "" :: mux.split_slash s.
Proof. reflexivity. Qed.

(** X13.  [cleanPath] yields a canonical path: cleaning it again changes
    nothing, it starts with a slash, and none of its elements is [.] or
    [..]. *)
Theorem cleanPath_canonical_fixpoint (p : string) :
  mux.cleanPath (mux.cleanPath p) = mux.cleanPath p
  /\ mux.starts_with_slash (mux.cleanPath p) = true
  /\ Forall (fun e => e <> "." /\ e <> "..") (mux.split_slash (mux.cleanPath p)).
Proof.
  split; [apply cleanPath_idempotent|].
  destruct (cleanPath_shape p) as (st & Hst & Hshape).
  assert (Forall (fun e => e <> "." /\ e <> "..") st) as Hdots.
  { eapply Forall_impl; [exact Hst|]. intros e. unfold kept_ok.
    rewrite !andb_true_iff, !negb_true_iff, !String.eqb_neq. tauto. }
  assert (Forall (fun e => no_slash e = true) st) as Hns
    by (eapply Forall_impl; [exact Hst | apply kept_ok_no_slash]).
  destruct Hshape as [-> | [Hne ->]].
  - split; [reflexivity|]. rewrite split_slash_leading.
    constructor; [split; discriminate|].
    destruct st as [|e st'].
    + repeat constructor; discriminate.
    + by rewrite split_join.
  - split; [reflexivity|].
    rewrite append_assoc, split_slash_leading, split_join_slash by done.
    constructor; [split; discriminate|].
    apply Forall_app. split; [done|]. repeat constructor; discriminate.
Qed.

(** X14.  A redirect of the router never leads to another redirect: when
    a request is answered with 301, the [Location] is the canonical form of
    its path, differs from the path, and a request for that location, with
    any method and query, is answered with 200, 404 or 405. *)
Theorem redirect_target_not_redirected (req : Request) :
  Status (mux.ServeHTTP router req) = 301 ->
  Location (mux.ServeHTTP router req) = Some (mux.cleanPath (Path req))
  /\ mux.cleanPath (Path req) <> Path req
  /\ (forall m q,
        Status (mux.ServeHTTP router (mkRequest m (mux.cleanPath (Path req)) q))
        ∈ [200; 404; 405]).
Proof.
  rewrite router_dispatch. unfold dispatch at 1 2.
  destruct (String.eqb_spec (mux.cleanPath (Path req)) (Path req)) as [Hc|Hc];
    cbn [negb].
  { intros Hs. exfalso. revert Hs.
    destruct (String.eqb (Path req) "/greet");
      [destruct (String.eqb (Method req) "GET"); discriminate|].
    destruct (String.eqb (Path req) "/greet-many");
      [destruct (String.eqb (Method req) "GET"); discriminate|].
    discriminate. }
  intros _. split; [reflexivity|]. split; [exact Hc|].
  intros m q. rewrite router_dispatch. unfold dispatch. cbn [Path Method].
  rewrite cleanPath_idempotent, String.eqb_refl. cbn [negb].
  destruct (String.eqb (mux.cleanPath (Path req)) "/greet");
    [destruct (String.eqb m "GET"); set_solver|].
  destruct (String.eqb (mux.cleanPath (Path req)) "/greet-many");
    [destruct (String.eqb m "GET"); set_solver|].
  set_solver.
Qed.

Lemma redirect_target_not_redirected_witness :
  let req := mkRequest "GET" "/a/../greet//" [("name", "Ada")] in
  Status (mux.ServeHTTP router req) = 301
  /\ Location (mux.ServeHTTP router req) = Some "/greet/"
  /\ Status (mux.ServeHTTP router (mkRequest "GET" "/greet/" [("name", "Ada")])) <> 301.
Proof.
  intros req.
  assert (Status (mux.ServeHTTP router req) = 301) as Hs by reflexivity.
  destruct (redirect_target_not_redirected req Hs) as (Hloc & _ & Hnext).
  split; [exact Hs|]. split; [exact Hloc|].
  specialize (Hnext "GET" [("name", "Ada")]).
  intros H301. change (mux.cleanPath (Path req)) with "/greet/" in Hnext.
  rewrite H301 in Hnext. set_solver.
Defined.

(** X15.  [snowflake.NewNode] accepts exactly the node numbers from 0 to
    1023 and refuses every other number with an error. *)
Theorem NewNode_range (node : Z) :
  (0 <= node <= 1023 -> snowflake.NewNode node = inl node)
  /\ (node < 0 \/ 1023 < node -> exists err, snowflake.NewNode node = inr err).
Proof.
  unfold snowflake.NewNode.
  change snowflake.nodeMax with 1023.
  destruct (Z.ltb_spec node 0), (Z.ltb_spec 1023 node); cbn [orb];
    split; intros; try lia; eauto.
Qed.

Lemma NewNode_range_witness :
  snowflake.NewNode 1 = inl 1
  /\ snowflake.NewNode 1023 = inl 1023
  /\ (exists err, snowflake.NewNode 1024 = inr err)
  /\ (exists err, snowflake.NewNode (-1) = inr err).
Proof.
  repeat apply conj.
  - apply (NewNode_range 1). lia.
  - apply (NewNode_range 1023). lia.
  - apply (NewNode_range 1024). lia.
  - apply (NewNode_range (-1)). lia.
Defined.

(** X16.  The panics of [runServer]: the slice of the empty token after a
    failed signing, the error of the fetch, the error of the UUID generator,
    or the nil attribute.  The node number 1 is always accepted, so the
    panic after [snowflake.NewNode] never fires. *)
Theorem panic_values (w : World) (v : PanicValue) :
  result (runServer w) = Stop (Panic v) ->
  (v = PanicSliceBounds 20 0 /\ exists err, jwt_signer w = inr err)
  \/ (exists err, v = PanicErr err /\ xml_fetch w = inr err)
  \/ (exists err, v = PanicErr err /\ uuid_new w = inr err)
  \/ (v = PanicNilDeref
      /\ exists doc, xml_fetch w = inl doc
                     /\ xmlquery.FindOne_application_xmlns doc = None).
Proof.
  rewrite runServer_result, prelude_result_cases, legacy_result.
  destruct (jwt_signer w) as [rest|e1]; cbn [is_inl].
  2: { intros [= <-]. left. eauto. }
  destruct (xml_fetch w) as [doc|e2].
  2: { intros [= <-]. right; left. eauto. }
  destruct (uuid_new w) as [u|e3].
  2: { intros [= <-]. right; right; left. eauto. }
  destruct (xmlquery.FindOne_application_xmlns doc) eqn:Hf.
  - rewrite serve_phase_result. destruct (listener_fails w); discriminate.
  - intros [= <-]. right; right; right. eauto.
Qed.

Lemma panic_values_witness :
  result (runServer world_no_attr) = Stop (Panic PanicNilDeref)
  /\ exists doc, xml_fetch world_no_attr = inl doc
                 /\ xmlquery.FindOne_application_xmlns doc = None.
Proof.
  assert (result (runServer world_no_attr) = Stop (Panic PanicNilDeref)) as Hres
    by (vm_compute; reflexivity).
  split; [exact Hres|].
  destruct (panic_values world_no_attr PanicNilDeref Hres)
    as [[H _] | [(e & H & _) | [(e & H & _) | [_ H]]]];
    try discriminate H.
  exact H.
Defined.

